(** * The dual-backend file registry: JSON merge preview, selection and bulk delete

    A shallow embedding of
      - [JsonMergeModal] (its [deepMerge] and the strategy switch of
        [generatePreview], and the two file pickers),
      - [Home] in [src/app/page.tsx] ([handleFileSelect] and the bulk
        request it builds),
      - the [POST] handler of [src/app/api/files/bulk/route.ts],
    followed by the properties of the specification that concern them. *)

From Stdlib Require Import ZArith Lia Ascii String DecimalString.
From stdpp Require Import base decidable option list strings pretty gmap.

(** ** JavaScript values as the sources use them *)

Module Js.

(** A parsed JSON document.  Numbers are never inspected by the code under
    study, they are carried around and printed only; [JNumber n] is the
    number whose value is the integer [n].  An object is the list of its own
    enumerable properties in the order in which they are enumerated; a new
    property goes last (the rule that puts integer-like keys first is not
    modelled, and no statement below depends on where a new key lands).
    What an object inherits is not part of a JSON document: every object
    that [JSON.parse] yields has [Object.prototype] above it, and the key
    [__proto__] of a document is an own property like any other.  Where the
    code looks a key up along the prototype chain ([key in result] and
    [result[key]] of [deepMerge]) the chain is modelled there. *)
Unset Elimination Schemes.
Inductive json : Type :=
| JNull
| JBool (b : bool)
| JNumber (n : Z)
| JString (s : string)
| JArray (items : list json)
| JObject (props : list (string * json)).
Set Elimination Schemes.

Abbreviation props_t := (list (string * json)).

(** Structural induction that reaches below arrays and objects. *)
Definition json_ind (P : json -> Prop)
    (Hnull : P JNull)
    (Hbool : forall b, P (JBool b))
    (Hnum : forall n, P (JNumber n))
    (Hstr : forall s, P (JString s))
    (Harr : forall items, Forall P items -> P (JArray items))
    (Hobj : forall props, Forall (fun kv => P kv.2) props -> P (JObject props)) :
  forall v, P v :=
  fix go (v : json) : P v :=
    match v with
    | JNull => Hnull
    | JBool b => Hbool b
    | JNumber n => Hnum n
    | JString s => Hstr s
    | JArray items =>
        Harr items
          ((fix all (l : list json) : Forall P l :=
              match l with
              | [] => Forall_nil_2 P
              | x :: l' => Forall_cons_2 P x l' (go x) (all l')
              end) items)
    | JObject props =>
        Hobj props
          ((fix all (l : props_t) : Forall (fun kv => P kv.2) l :=
              match l with
              | [] => Forall_nil_2 _
              | kv :: l' => Forall_cons_2 (fun kv => P kv.2) kv l' (go kv.2) (all l')
              end) props)
    end.

(** A value read from a property or a binding: [None] is [undefined]. *)
Definition jsval := option json.

(** [obj[key]] on own properties. *)
Fixpoint getOwn (key : string) (props : props_t) : jsval :=
  match props with
  | [] => None
  | (k, v) :: rest => if decide (k = key) then Some v else getOwn key rest
  end.

(** [key in obj]. *)
Definition hasKey (key : string) (props : props_t) : bool :=
  match getOwn key props with Some _ => true | None => false end.

(** [obj[key] = v]: an existing property keeps its place, a new one goes
    last. *)
Fixpoint assign (key : string) (v : json) (props : props_t) : props_t :=
  match props with
  | [] => [(key, v)]
  | (k, x) :: rest =>
      if decide (k = key) then (k, v) :: rest else (k, x) :: assign key v rest
  end.

(** [{ ...result, ...source }]: every property of the source is assigned in
    turn. *)
Definition spread (result source : props_t) : props_t :=
  fold_left (fun acc kv => assign kv.1 kv.2 acc) source result.

Definition indexed (items : list json) : props_t :=
  imap (fun i x => (pretty i, x)) items.

(** The characters that a spread copies out of a string.  A string is a
    sequence of bytes here and of UTF-16 code units in JavaScript: the two
    agree on ASCII text. *)
Fixpoint chars (s : string) : list json :=
  match s with
  | EmptyString => []
  | String c rest => JString (String c EmptyString) :: chars rest
  end.

(** The own enumerable properties that a spread copies out of a value:
    the members of an object, the indexed elements of an array, the
    indexed characters of a string, nothing for the other scalars. *)
Definition ownProps (v : json) : props_t :=
  match v with
  | JObject props => props
  | JArray items => indexed items
  | JString s => indexed (chars s)
  | _ => []
  end.

(** The property [key] of a value that is not [null]; only the names the
    sources read on request data are looked up, none of which is an
    inherited property. *)
Definition getProp (v : json) (key : string) : jsval :=
  match v with
  | JObject props => getOwn key props
  | _ => None
  end.

(** Truthiness, as [!x] and [if (x)] decide it. *)
Definition truthy (v : jsval) : bool :=
  match v with
  | None | Some JNull => false
  | Some (JBool b) => b
  | Some (JNumber n) => negb (n =? 0)%Z
  | Some (JString s) => negb (bool_decide (s = ""))
  | Some (JArray _) | Some (JObject _) => true
  end.

Definition isArray (v : jsval) : bool :=
  match v with Some (JArray _) => true | _ => false end.

(** The elements of an array, to iterate over or to count. *)
Definition arrayItems (v : jsval) : list json :=
  match v with Some (JArray items) => items | _ => [] end.

Fixpoint join (sep : string) (parts : list string) : string :=
  match parts with
  | [] => ""
  | [p] => p
  | p :: rest => p +:+ sep +:+ join sep rest
  end.

(** [String(v)], which is also what a template literal inserts, where it
    returns: [printThrows] below tells where it throws instead.  A number
    is printed by its decimal digits, as JavaScript prints the integers
    below [2 ^ 53] in magnitude ([printable]). *)
Fixpoint toString (v : json) : string :=
  match v with
  | JNull => "null"
  | JBool true => "true"
  | JBool false => "false"
  | JNumber n => pretty n
  | JString s => s
  | JArray items =>
      join "," (map (fun x => match x with JNull => "" | _ => toString x end) items)
  | JObject _ => "[object Object]"
  end.

Definition toStringVal (v : jsval) : string :=
  match v with None => "undefined" | Some x => toString x end.

(** Whether [String(v)] throws a [TypeError].  The conversion of an object
    calls its [toString]: an own property of that name holds a JSON value,
    which cannot be called, [Object.prototype.valueOf] then returns the
    object itself, and no primitive value is left to return.  An array
    joins the conversions of its elements. *)
Fixpoint printThrows (v : json) : bool :=
  match v with
  | JArray items => existsb printThrows items
  | JObject props => hasKey "toString" props
  | _ => false
  end.

Definition printThrowsVal (v : jsval) : bool :=
  match v with None => false | Some x => printThrows x end.



Definition keys (props : props_t) : list string := props.*1.

(** What [JSON.parse] guarantees: no object of the document has two
    properties of the same name. *)
Fixpoint wf (v : json) : Prop :=
  match v with
  | JArray items =>
      (fix all (l : list json) : Prop :=
         match l with [] => True | x :: l' => wf x /\ all l' end) items
  | JObject props =>
      NoDup (keys props) /\
      (fix all (l : props_t) : Prop :=
         match l with [] => True | kv :: l' => wf kv.2 /\ all l' end) props
  | _ => True
  end.

End Js.

(** ** [JsonMergeModal] *)

Module JsonMergeModal.
Import Js.

(** Modelled from the spec: the [FileMetadata] type of [@/types/file], of
    which the sources read [id], [storageType], [originalName],
    [extension], [filePath] and [category].  An id is a number (relational
    rows) or a string (documents). *)
Inductive Id : Type :=
| IdNum (n : Z)
| IdStr (s : string).

#[global] Instance Id_eq_dec : EqDecision Id.
Proof. solve_decision. Defined.

Record FileMetadata : Type := {
  id : Id;
  storageType : string;
  originalName : string;
  extension : string;
  filePath : string;
  category : string;
}.

#[global] Instance FileMetadata_eq_dec : EqDecision FileMetadata.
Proof. solve_decision. Defined.

(** [String(f.id)]. *)
Definition idString (i : Id) : string :=
  match i with IdNum n => pretty n | IdStr s => s end.

Definition idJson (i : Id) : json :=
  match i with IdNum n => JNumber n | IdStr s => JString s end.

Inductive MergeStrategy : Type := shallow | deep | override | combine.

Definition strategyName (s : MergeStrategy) : string :=
match s with
| shallow => "shallow"
| deep => "deep"
| override => "override"
| combine => "combine"
end.

(** What stands above the own properties of the [result] that [deepMerge]
    builds, where [key in result] and [result[key]] go on looking.
    [{ ...obj1 }] creates the object below [Object.prototype], and only the
    key [__proto__] can change that: [Object.prototype] holds it as an
    accessor whose setter makes the assigned object or array the prototype
    of [result], makes [null] its prototype, and ignores any other value. *)
Inductive Proto : Type :=
| ObjectPrototype
| NullPrototype
| ArrayValue (items : list json)
| ObjectValue (own : props_t) (above : Proto).

(** What the chain above the own properties holds under a key. *)
Inductive Inherited : Type :=
| NothingToMerge
| Value (v : json)
| ProtoAccessor.

(** The lookup of [key] above the own properties.  A method of
    [Object.prototype] or [Array.prototype] and the [length] of an array are
    found by [key in result], yet [deepMerge] of a function or a number with
    the second value is the second value and the assignment creates the own
    property, which is what happens when nothing is found: both are
    [NothingToMerge]. *)
Fixpoint inherited (key : string) (proto : Proto) : Inherited :=
  match proto with
  | ObjectPrototype => if decide (key = "__proto__") then ProtoAccessor else NothingToMerge
  | NullPrototype => NothingToMerge
  | ArrayValue items =>
      match getOwn key (indexed items) with
      | Some v => Value v
      | None => if decide (key = "__proto__") then ProtoAccessor else NothingToMerge
      end
  | ObjectValue own above =>
      match getOwn key own with
      | Some v => Value v
      | None => inherited key above
      end
  end.

(** [result["__proto__"]] read through the accessor: the prototype, as
    [deepMerge] sees it when it is its first argument ([Object.prototype] is
    an object with no enumerable property). *)
Definition prototypeValue (proto : Proto) : json :=
  match proto with
  | ObjectPrototype => JObject []
  | NullPrototype => JNull
  | ArrayValue items => JArray items
  | ObjectValue own _ => JObject own
  end.

(** [result["__proto__"] = v] through the accessor, [v] being a value
    together with what stands above it when it is an object. *)
Definition setPrototype (v : json * Proto) (proto : Proto) : Proto :=
  match v.1 with
  | JObject own => ObjectValue own v.2
  | JArray items => ArrayValue items
  | JNull => NullPrototype
  | _ => proto
  end.

(** The loop [for (const key in obj2)] of [deepMerge] over the properties
    still to visit, [rec] being [deepMerge] itself and [result] the object
    under construction: its own properties and what stands above them.  A
    value stored in a property is kept as a JSON value: when it is read
    again it is the first argument of [deepMerge], which copies its own
    properties and looks no further. *)
Definition mergeOnto (rec : json -> json -> json * Proto) :
    props_t -> props_t * Proto -> props_t * Proto :=
  fix loop (todo : props_t) (result : props_t * Proto) : props_t * Proto :=
    match todo with
    | [] => result
    | (key, v2) :: todo' =>
        loop todo'
          (match getOwn key result.1 with
           | Some v1 => (assign key (rec v1 v2).1 result.1, result.2)
           | None =>
               match inherited key result.2 with
               | Value v1 => (assign key (rec v1 v2).1 result.1, result.2)
               | ProtoAccessor =>
                   (result.1, setPrototype (rec (prototypeValue result.2) v2) result.2)
               | NothingToMerge => (assign key v2 result.1, result.2)
               end
           end)
    end.

(** [deepMerge], returning the value together with what stands above it
    when it is an object (an object of the second document, returned as it
    is, has [Object.prototype] there). *)
Fixpoint deepMergeResult (obj1 obj2 : json) {struct obj2} : json * Proto :=
  match obj1, obj2 with
  | JArray a1, JArray a2 => (JArray (a1 ++ a2), ObjectPrototype)
  | JObject o1, JObject o2 =>
      let result := mergeOnto deepMergeResult o2 (spread [] o1, ObjectPrototype) in
      (JObject result.1, result.2)
  | _, _ => (obj2, ObjectPrototype)
  end.

(** The document that [deepMerge] returns: what [JSON.stringify] shows of
    it in the preview. *)
Definition deepMerge (obj1 obj2 : json) : json := (deepMergeResult obj1 obj2).1.

(** The loop as it runs when no key reaches the accessor: every key is
    looked up among the own properties and assigned there
    ([MergeFacts.deepMerge_objects]). *)
Definition mergeProps (rec : json -> json -> json) : props_t -> props_t -> props_t :=
  fix loop (todo result : props_t) : props_t :=
    match todo with
    | [] => result
    | (key, v2) :: todo' =>
        loop todo'
          (match getOwn key result with
           | Some v1 => assign key (rec v1 v2) result
           | None => assign key v2 result
           end)
    end.

(** The [switch (mergeStrategy)] of [generatePreview]. *)
Definition merged (mergeStrategy : MergeStrategy) (data1 data2 : json) : json :=
  match mergeStrategy with
  | shallow => JObject (spread (spread [] (ownProps data1)) (ownProps data2))
  | deep => deepMerge data1 data2
  | override => data2
  | combine => JObject [("file1", data1); ("file2", data2)]
  end.

(** The state of the modal that the handlers below read and set. *)
Record Modal : Type := {
  selectedFiles : option FileMetadata * option FileMetadata;
  mergeStrategy : MergeStrategy;
  preview : option json;
  error : option string;
}.

Definition setSelectedFiles (s : option FileMetadata * option FileMetadata) (m : Modal) : Modal :=
  {| selectedFiles := s; mergeStrategy := mergeStrategy m;
     preview := preview m; error := error m |}.

Definition setPreview (p : option json) (m : Modal) : Modal :=
  {| selectedFiles := selectedFiles m; mergeStrategy := mergeStrategy m;
     preview := p; error := error m |}.

Definition setError (e : option string) (m : Modal) : Modal :=
  {| selectedFiles := selectedFiles m; mergeStrategy := mergeStrategy m;
     preview := preview m; error := e |}.

(** [generatePreview]; [fetchJson path] is [fetch(path).then(r => r.json())],
    [None] when the request or the parse rejects. *)
Definition generatePreview (fetchJson : string -> option json) (m : Modal) : Modal :=
  match selectedFiles m with
  | (Some f1, Some f2) =>
      match fetchJson (filePath f1), fetchJson (filePath f2) with
      | Some data1, Some data2 =>
          setPreview (Some (merged (mergeStrategy m) data1 data2)) m
      | _, _ => setError (Some "Failed to generate preview") m
      end
  | _ => m
  end.

(** [files.filter(f => f.extension === "json")]. *)
Definition jsonFiles (files : list FileMetadata) : list FileMetadata :=
  List.filter (fun f => bool_decide (extension f = "json")) files.

(** The [value] of the [<option>] rendered for a file. *)
Definition optionValue (file : FileMetadata) : string := idString (id file).

(** [jsonFiles.find(f => String(f.id) === e.target.value)]. *)
Definition findByValue (files : list FileMetadata) (value : string) : option FileMetadata :=
  List.find (fun f => bool_decide (idString (id f) = value)) (jsonFiles files).

(** [onChange] of the first and of the second picker. *)
Definition onChangeFirst (files : list FileMetadata) (value : string) (m : Modal) : Modal :=
  setSelectedFiles (findByValue files value, (selectedFiles m).2) m.

Definition onChangeSecond (files : list FileMetadata) (value : string) (m : Modal) : Modal :=
  setSelectedFiles ((selectedFiles m).1, findByValue files value) m.

(** [disabled={file.id === selectedFiles[0]?.id}] on an option of the
    second picker. *)
Definition secondDisabled (m : Modal) (file : FileMetadata) : bool :=
  match (selectedFiles m).1 with
  | Some f0 => bool_decide (id file = id f0)
  | None => false
  end.

(** The body that [handleMerge] posts to the merge endpoint. *)
Definition handleMergeBody (m : Modal) : option json :=
  match selectedFiles m with
  | (Some f1, Some f2) =>
      Some (JObject [("file1Id", idJson (id f1));
                     ("file1StorageType", JString (storageType f1));
                     ("file2Id", idJson (id f2));
                     ("file2StorageType", JString (storageType f2));
                   ("strategy", JString (strategyName (mergeStrategy m)))])
  | _ => None
  end.

End JsonMergeModal.

(** ** What the specification says a self-merge does *)

Module MergeSpec.
Import Js JsonMergeModal.

(** The reading of "X except that every array inside X is replaced by its
    self-concatenation": every array of the document, at any depth, has its
    elements twice. *)
Fixpoint dupEveryArray (x : json) : json :=
  match x with
  | JArray items => JArray (map dupEveryArray items ++ map dupEveryArray items)
  | JObject props => JObject (map (fun kv => (kv.1, dupEveryArray kv.2)) props)
  | _ => x
  end.

(** What [deepMerge(X, X)] computes: the arrays that are reached from the
    root through object members only are concatenated with themselves, and
    their elements are left as they are. *)
Fixpoint dupMemberArrays (x : json) : json :=
  match x with
  | JArray items => JArray (items ++ items)
  | JObject props => JObject (map (fun kv => (kv.1, dupMemberArrays kv.2)) props)
  | _ => x
  end.

(** The rule of the specification for one key of a DEEP or SHALLOW merge of
    two objects, [rec] saying what happens when both have the key. *)
Definition atKey (rec : json -> json -> json) (v1 v2 : jsval) : jsval :=
  match v1, v2 with
  | Some x, Some y => Some (rec x y)
  | Some x, None => Some x
  | None, _ => v2
  end.

Definition num (n : Z) : json := JNumber n.

Definition deepLeft : json :=
  JObject [("a", JObject [("x", num 1)]); ("arr", JArray [num 1; num 2])].
Definition deepRight : json :=
  JObject [("a", JObject [("y", num 2)]); ("arr", JArray [num 3])].
Definition deepExpected : json :=
  JObject [("a", JObject [("x", num 1); ("y", num 2)]);
           ("arr", JArray [num 1; num 2; num 3])].

Definition shallowLeft : json := JObject [("a", num 1); ("b", num 2)].
Definition shallowRight : json := JObject [("b", num 3); ("c", num 4)].
Definition shallowExpected : json := JObject [("a", num 1); ("b", num 3); ("c", num 4)].

End MergeSpec.

(** ** [Home] in [src/app/page.tsx] *)

Module Page.
Import Js JsonMergeModal.

(** [f.id === file.id && f.storageType === file.storageType]. *)
Definition sameRecord (file f : FileMetadata) : bool :=
  bool_decide (id f = id file) && bool_decide (storageType f = storageType file).

(** The updater that [handleFileSelect] hands to [setSelectedFiles]. *)
Definition handleFileSelect (file : FileMetadata) (prev : list FileMetadata) : list FileMetadata :=
  let isSelected := existsb (sameRecord file) prev in
  if isSelected then List.filter (fun f => negb (sameRecord file f)) prev
  else prev ++ [file].

(** The request body of [handleBulkDelete]; nothing is sent for an empty
    selection. *)
Definition handleBulkDeleteBody (selected : list FileMetadata) : option json :=
  match selected with
  | [] => None
  | _ =>
      Some (JObject
        [("action", JString "delete");
         ("files", JArray (map (fun f => JObject [("id", idJson (id f));
                                                   ("storageType", JString (storageType f))])
                               selected))])
  end.

(** The address that [handleDelete] calls with method DELETE. *)
Definition handleDeleteUrl (file : FileMetadata) : string :=
  "/api/files/" +:+ idString (id file) +:+ "?storageType=" +:+ storageType file.

(** The address and the body that [handleRename] sends with method PATCH. *)
Definition handleRenameRequest (file : FileMetadata) (newName : string) : string * json :=
  ("/api/files/" +:+ idString (id file),
   JObject [("storageType", JString (storageType file)); ("newName", JString newName)]).

(** Two JSON files that carry the same id in different backends, and the
    modal as it opens. *)
Definition relationalReport : FileMetadata := {|
  id := IdNum 7; storageType := "postgres"; originalName := "report.json";
  extension := "json"; filePath := "/uploads/report.json"; category := "documents";
|}.

Definition documentNotes : FileMetadata := {|
  id := IdNum 7; storageType := "mongodb"; originalName := "notes.json";
  extension := "json"; filePath := "/uploads/notes.json"; category := "documents";
|}.

Definition openedModal : Modal := {|
  selectedFiles := (None, None); mergeStrategy := shallow; preview := None; error := None;
|}.

(** A JSON file whose id no other file carries, and the modal with two
    files chosen and their preview shown. *)
Definition documentTodo : FileMetadata := {|
  id := IdStr "65f1a0c2e4b0a1b2c3d4e5f6"; storageType := "mongodb";
  originalName := "todo.json"; extension := "json";
  filePath := "/uploads/todo.json"; category := "documents";
|}.

Definition previewingModal : Modal := {|
  selectedFiles := (Some relationalReport, Some documentTodo); mergeStrategy := deep;
  preview := Some (JObject [("a", JNumber 1)]); error := None;
|}.

End Page.

(** ** Node's [path.join] on a POSIX host *)

Module NodePath.

Definition slash : Ascii.ascii := "/"%char.

(** [s.split("/")]. *)
Fixpoint split (s : string) : list string :=
  match s with
  | EmptyString => [""]
  | String c rest =>
      if decide (c = slash) then "" :: split rest
      else match split rest with
           | seg :: segs => String c seg :: segs
           | [] => [String c ""]
           end
  end.

(** [normalizeString] on the segments of a path: empty and [.] segments
    are dropped, [..] removes the segment before it, and where there is none
    it is kept only in a relative path.  [res] holds the segments kept so
    far, last first. *)
Fixpoint normalizeSegments (allowAboveRoot : bool) (segs res : list string) : list string :=
  match segs with
  | [] => rev res
  | seg :: rest =>
      if bool_decide (seg = "") || bool_decide (seg = ".") then
        normalizeSegments allowAboveRoot rest res
      else if bool_decide (seg = "..") then
        normalizeSegments allowAboveRoot rest
          (match res with
           | top :: below =>
               if bool_decide (top = "..") then (if allowAboveRoot then ".." :: res else res)
               else below
           | [] => if allowAboveRoot then [".."] else []
           end)
      else normalizeSegments allowAboveRoot rest (seg :: res)
  end.

(** [s.startsWith("/")]. *)
Definition startsWithSlash (s : string) : bool :=
  match s with
  | String c _ => bool_decide (c = slash)
  | EmptyString => false
  end.

Fixpoint endsWithSlash (s : string) : bool :=
  match s with
  | EmptyString => false
  | String c EmptyString => bool_decide (c = slash)
  | String _ rest => endsWithSlash rest
  end.

(** [s.slice(1)]. *)
Definition slice1 (s : string) : string :=
  match s with
  | String _ rest => rest
  | EmptyString => ""
  end.

(** [path.normalize]. *)
Definition normalize (path : string) : string :=
  if bool_decide (path = "") then "."
  else
    let isAbsolute := startsWithSlash path in
    let trailingSeparator := endsWithSlash path in
    let p := Js.join "/" (normalizeSegments (negb isAbsolute) (split path) []) in
    if bool_decide (p = "") then
      (if isAbsolute then "/" else if trailingSeparator then "./" else ".")
    else
      (if isAbsolute then "/" else "") +:+ p +:+ (if trailingSeparator then "/" else "").

(** [path.join(...args)]: the non-empty arguments, joined by ["/"], then
    normalized. *)
Definition join (args : list string) : string :=
  match List.filter (fun arg => negb (bool_decide (arg = ""))) args with
  | [] => "."
  | parts => normalize (Js.join "/" parts)
  end.

(** The segments that normalization keeps when there is no [..]. *)
Definition kept (segs : list string) : list string :=
  List.filter (fun seg => negb (bool_decide (seg = "") || bool_decide (seg = "."))) segs.

(** The stack that [normalizeSegments] has built when its input ends. *)
Fixpoint stackAfter (allowAboveRoot : bool) (segs res : list string) : list string :=
  match segs with
  | [] => res
  | seg :: rest =>
      if bool_decide (seg = "") || bool_decide (seg = ".") then
        stackAfter allowAboveRoot rest res
      else if bool_decide (seg = "..") then
        stackAfter allowAboveRoot rest
          (match res with
           | top :: below =>
               if bool_decide (top = "..") then (if allowAboveRoot then ".." :: res else res)
               else below
           | [] => if allowAboveRoot then [".."] else []
           end)
      else stackAfter allowAboveRoot rest (seg :: res)
  end.

(** The segments of the blob root: those of the working directory, then
    [public]. *)
Definition rootSegments (cwd : string) : list string :=
  rev (stackAfter false (split cwd) []) ++ ["public"].

End NodePath.

(** ** The [POST] handler of [src/app/api/files/bulk/route.ts] *)

Module BulkRoute.
Import Js.

(** A thrown [Error]; the handler reads nothing of it but [message]. *)
Record Error : Type := { message : string }.

(** Computations over the outside world [W] (the two stores, the disk, the
    console) that return or throw. *)
Definition M (W A : Type) : Type := W -> (Error + A) * W.

Definition ret {W A} (a : A) : M W A := fun w => (inr a, w).

Definition throw {W A} (e : Error) : M W A := fun w => (inl e, w).

Definition bind {W A B} (c : M W A) (k : A -> M W B) : M W B :=
  fun w =>
    match c w with
    | (inr a, w') => k a w'
    | (inl e, w') => (inl e, w')
    end.

(** [try { c } catch (error) { handler }]. *)
Definition try_catch {W A} (c : M W A) (handler : Error -> M W A) : M W A :=
  fun w =>
    match c w with
    | (inr a, w') => (inr a, w')
    | (inl e, w') => handler e w'
    end.

Declare Scope route_scope.
Delimit Scope route_scope with route.
Notation "'let*' x ':=' c 'in' k" := (bind c (fun x => k))
  (at level 10, x name, c at level 100, k at level 200) : route_scope.
Notation "'let*' ' pat ':=' c 'in' k" := (bind c (fun x => match x with pat => k end))
  (at level 10, pat pattern, c at level 100, k at level 200) : route_scope.
Notation "c ';;' k" := (bind c (fun _ => k))
  (at level 100, k at level 200, right associativity) : route_scope.
Local Open Scope route_scope.

(** A document of [FileModel] and a row of the [files] table, as far as the
    handler reads them. *)
Record FileDoc : Type := { filePath : string }.
Record Row : Type := { file_path : string }.
Record QueryResult : Type := { rows : list Row }.

(** What the handler imports: the document model, the connection pool, the
    file system, the console and the working directory. *)
Class Backend (W : Type) : Type := {
  connectMongoDB : M W unit;
  findById : jsval -> M W (option FileDoc);
  findByIdAndDelete : jsval -> M W unit;
  pool_query : string -> list jsval -> M W QueryResult;
  unlink : string -> M W unit;
  console_error : string -> W -> W;
  process_cwd : W -> string;
}.

Record Results : Type := { success : nat; failed : nat; errors : list string }.

Inductive Body : Type :=
| ErrorBody (error : string)
| BulkBody (message : string) (results : Results).

(** [NextResponse.json(body, { status })]. *)
Record Response : Type := { status : nat; body : Body }.

Definition typeError (what : string) : Error := {| message := what |}.

(** [v === s] for a string literal [s]. *)
Definition isString (v : jsval) (s : string) : bool :=
  match v with
  | Some (JString s') => bool_decide (s' = s)
  | _ => false
  end.

Section Handler.
Context {W : Type} `{Backend W}.

(** [const { id, storageType } = fileInfo], which throws on [null]. *)
Definition destructure (fileInfo : json) : M W (jsval * jsval) :=
  match fileInfo with
  | JNull =>
      throw (typeError "Cannot destructure property 'id' of 'fileInfo' as it is null.")
  | _ => ret (getProp fileInfo "id", getProp fileInfo "storageType")
  end.

(** Lines 31 to 47: the path of the record if there is one, whose metadata
    is deleted then. *)
Definition deleteMetadata (id storageType : jsval) : M W (option string) :=
  if isString storageType "mongodb" then
    connectMongoDB ;;
    let* file := findById id in
    match file with
    | Some f => findByIdAndDelete id ;; ret (Some (filePath f))
    | None => ret None
    end
  else
    let* result := pool_query "SELECT file_path FROM files WHERE id = $1" [id] in
    match rows result with
    | row :: _ =>
        pool_query "DELETE FROM files WHERE id = $1" [id] ;;
        ret (Some (file_path row))
    | [] => ret None
    end.

(** [path.join(process.cwd(), "public", cleanPath)]. *)
Definition absolutePathOf (cwd filePath : string) : string :=
  let cleanPath :=
    if NodePath.startsWithSlash filePath then NodePath.slice1 filePath else filePath in
  NodePath.join [cwd; "public"; cleanPath].

(** Lines 49 to 58: the physical file goes, a failure is logged only. *)
Definition deletePhysical (filePath : option string) : M W unit :=
  match filePath with
  | Some p =>
      if bool_decide (p = "") then ret ()
      else
        fun w =>
          let absolutePath := absolutePathOf (process_cwd w) p in
          try_catch (unlink absolutePath)
            (fun error w' =>
               (inr (), console_error ("Failed to delete physical file: " +:+ message error) w'))
            w
  | None => ret ()
  end.

(** The body of the inner [try]. *)
Definition deleteOne (fileInfo : json) : M W unit :=
  let* '(id, storageType) := destructure fileInfo in
  let* filePath := deleteMetadata id storageType in
  deletePhysical filePath.

(** [fileInfo.id] in the handler of the inner [try], which throws on
    [null]. *)
Definition readId (fileInfo : json) : M W jsval :=
  match fileInfo with
  | JNull => throw (typeError "Cannot read properties of null (reading 'id')")
  | _ => ret (getProp fileInfo "id")
  end.

(** [`${id}`]: the template literal converts the value to a string, and
    throws where [String] does. *)
Definition printed (v : jsval) : M W string :=
  if printThrowsVal v then throw (typeError "Cannot convert object to primitive value")
  else ret (toStringVal v).

(** One turn of the loop. *)
Definition step (results : Results) (fileInfo : json) : M W Results :=
  try_catch
    (deleteOne fileInfo ;;
     ret {| success := S (success results); failed := failed results;
            errors := errors results |})
    (fun error =>
       let* id := readId fileInfo in
       let* text := printed id in
       ret {| success := success results; failed := S (failed results);
              errors := errors results ++
                ["Failed to delete file " +:+ text +:+ ": " +:+ message error] |}).

(** [for (const fileInfo of files)]. *)
Fixpoint forEach (files : list json) (results : Results) : M W Results :=
  match files with
  | [] => ret results
  | fileInfo :: rest => let* results' := step results fileInfo in forEach rest results'
  end.

(** [const { action, files } = body]. *)
Definition destructureBody (body : json) : M W (jsval * jsval) :=
  match body with
  | JNull =>
      throw (typeError "Cannot destructure property 'action' of 'body' as it is null.")
  | _ => ret (getProp body "action", getProp body "files")
  end.

(** The body of the outer [try]; [requestJson] is what [request.json()]
    resolves to or rejects with. *)
Definition handle (requestJson : Error + json) : M W Response :=
  let* body := (match requestJson with inl e => throw e | inr b => ret b end) in
  let* '(action, files) := destructureBody body in
  if negb (truthy action) || negb (truthy files) || negb (isArray files)
     || bool_decide (length (arrayItems files) = 0) then
    ret {| status := 400; body := ErrorBody "Action and files array are required" |}
  else if isString action "delete" then
    let* results := forEach (arrayItems files) {| success := 0; failed := 0; errors := [] |} in
    ret {| status := 200;
           body := BulkBody ("Deleted " +:+ pretty (success results) +:+
                             " files successfully") results |}
  else ret {| status := 400; body := ErrorBody "Invalid action" |}.

Definition POST (requestJson : Error + json) (w : W) : Response * W :=
  match handle requestJson w with
  | (inr response, w') => (response, w')
  | (inl error, w') =>
      ({| status := 500; body := ErrorBody "Failed to perform bulk operation" |},
       console_error ("Bulk operation error: " +:+ message error) w')
  end.

(** The outcome of each record of a batch, every record starting from the
    world its predecessor left: [None] when its deletion returned, the
    message of the error when it threw. *)
Fixpoint outcomes (files : list json) (w : W) : list (json * option string) :=
  match files with
  | [] => []
  | fileInfo :: rest =>
      let '(r, w') := deleteOne fileInfo w in
      (fileInfo, match r with inr _ => None | inl e => Some (message e) end)
        :: outcomes rest w'
  end.

(** The world that a batch leaves. *)
Fixpoint after (files : list json) (w : W) : W :=
  match files with
  | [] => w
  | fileInfo :: rest => after rest (deleteOne fileInfo w).2
  end.

End Handler.

(** An entry of [files] whose failure the handler can report: it is not
    [null], so that [fileInfo.id] can be read, and its id can be printed.
    Such an entry is [identified] when moreover [toString] is what is
    printed, as it is for the id of every record: a string or an integer
    below [2 ^ 53]. *)
Definition reportable (fileInfo : json) : Prop :=
  fileInfo <> JNull /\ printThrowsVal (getProp fileInfo "id") = false.


(** The entry of [errors] for a record that failed. *)
Definition errorEntry (fileInfo : json) (msg : string) : string :=
  "Failed to delete file " +:+ toStringVal (getProp fileInfo "id") +:+ ": " +:+ msg.

(** The tally after one more record. *)
Definition tally (results : Results) (fileInfo : json) (r : Error + unit) : Results :=
  match r with
  | inr _ =>
      {| success := S (success results); failed := failed results;
         errors := errors results |}
  | inl e =>
      {| success := success results; failed := S (failed results);
         errors := errors results ++ [errorEntry fileInfo (message e)] |}
  end.

Fixpoint succeededIn (os : list (json * option string)) : list json :=
  match os with
  | [] => []
  | (fileInfo, None) :: rest => fileInfo :: succeededIn rest
  | (_, Some _) :: rest => succeededIn rest
  end.

Fixpoint failedIn (os : list (json * option string)) : list (json * string) :=
  match os with
  | [] => []
  | (fileInfo, Some msg) :: rest => (fileInfo, msg) :: failedIn rest
  | (_, None) :: rest => failedIn rest
  end.

End BulkRoute.

(** ** A reference backend: both stores, the disk and the console in memory *)

Module Mem.
Import Js BulkRoute.

(** The calls that leave the handler. *)
Inductive event : Type :=
| Connect
| FindById (id : jsval)
| FindByIdAndDelete (id : jsval)
| Query (sql : string) (params : list jsval)
| Unlink (path : string).

(** Modelled from the spec: the two metadata stores behind
    [@/lib/db/mongodb] and [@/lib/db/postgres], which are not among the
    sources, each holding one record per id, where a lookup by id yields the
    record or nothing and a delete by id removes it; with them the disk, the
    console and the working directory of the process.

    [mongo] is the collection behind [FileModel], by [_id]; [pg] the [files]
    table, by [id]; [disk] the paths of the files that exist.  [faults]
    scripts the calls to come, first call first: [Some e] makes the call
    throw [e] before it does anything (a store that cannot be reached, an id
    that the store refuses, a disk that denies access), [None] lets it run;
    calls beyond the script run.  [trace] lists the calls made, oldest
    first. *)
Record World : Type := {
  mongo : gmap string FileDoc;
  pg : gmap Z Row;
  disk : gset string;
  cwd : string;
  faults : list (option Error);
  trace : list event;
  console : list string;
}.

Definition set_mongo (m : gmap string FileDoc) (w : World) : World :=
  {| mongo := m; pg := pg w; disk := disk w; cwd := cwd w;
     faults := faults w; trace := trace w; console := console w |}.

Definition set_pg (t : gmap Z Row) (w : World) : World :=
  {| mongo := mongo w; pg := t; disk := disk w; cwd := cwd w;
     faults := faults w; trace := trace w; console := console w |}.

Definition set_disk (d : gset string) (w : World) : World :=
  {| mongo := mongo w; pg := pg w; disk := d; cwd := cwd w;
     faults := faults w; trace := trace w; console := console w |}.

Definition log (line : string) (w : World) : World :=
  {| mongo := mongo w; pg := pg w; disk := disk w; cwd := cwd w;
     faults := faults w; trace := trace w; console := console w ++ [line] |}.

(** A call is traced and consumes one entry of the script. *)
Definition enter (ev : event) (w : World) : World :=
  {| mongo := mongo w; pg := pg w; disk := disk w; cwd := cwd w;
     faults := tail (faults w); trace := trace w ++ [ev]; console := console w |}.

Definition call {A} (ev : event) (run : M World A) : M World A :=
  fun w =>
    match faults w with
    | Some e :: _ => (inl e, enter ev w)
    | _ => run (enter ev w)
    end.

(** How the document store reads an id: a string is a key, [null] and
    [undefined] match no document, anything else cannot be cast.  The shape
    of a key (24 hexadecimal digits) is not checked here; a string that the
    store refuses is one of the failures that [faults] scripts. *)
Definition objectId (id : jsval) : Error + option string :=
  match id with
  | Some (JString s) => inr (Some s)
  | None | Some JNull => inr None
  | Some v =>
      inl {| message := "Cast to ObjectId failed for value " +:+ toString v |}
  end.

Definition mem_findById (id : jsval) : M World (option FileDoc) :=
  call (FindById id) (fun w =>
    match objectId id with
    | inl e => (inl e, w)
    | inr key => (inr (key ≫= fun k => mongo w !! k), w)
    end).

Definition mem_findByIdAndDelete (id : jsval) : M World unit :=
  call (FindByIdAndDelete id) (fun w =>
    match objectId id with
    | inl e => (inl e, w)
    | inr (Some k) => (inr (), set_mongo (delete k (mongo w)) w)
    | inr None => (inr (), w)
    end).

(** How the relational store reads the parameter compared with the integer
    column [id]: a number is itself, a string must be a decimal numeral,
    [null] and [undefined] are SQL NULL and equal no id, anything else is
    refused. *)
Definition pgInteger (v : jsval) : Error + option Z :=
  match v with
  | Some (JNumber n) => inr (Some n)
  | Some (JString s) =>
      match NilZero.int_of_string s with
      | Some d => inr (Some (Z.of_int d))
      | None => inl {| message := "invalid input syntax for type integer: " +:+ s |}
      end
  | None | Some JNull => inr None
  | Some v => inl {| message := "invalid input syntax for type integer: " +:+ toString v |}
  end.

Definition selectSql : string := "SELECT file_path FROM files WHERE id = $1".
Definition deleteSql : string := "DELETE FROM files WHERE id = $1".

Definition mem_query (sql : string) (params : list jsval) : M World QueryResult :=
  call (Query sql params) (fun w =>
    match params with
    | [p] =>
        match pgInteger p with
        | inl e => (inl e, w)
        | inr key =>
            if bool_decide (sql = selectSql) then
              (inr {| rows := match key ≫= (fun k => pg w !! k) with
                              | Some row => [row]
                              | None => []
                              end |}, w)
            else if bool_decide (sql = deleteSql) then
              (inr {| rows := [] |},
               match key with Some k => set_pg (delete k (pg w)) w | None => w end)
            else (inl {| message := "syntax error in " +:+ sql |}, w)
        end
    | _ => (inl {| message := "bind message supplies the wrong number of parameters" |}, w)
    end).

(** [unlink] removes an existing file and rejects a path that names none. *)
Definition mem_unlink (path : string) : M World unit :=
  call (Unlink path) (fun w =>
    if bool_decide (path ∈ disk w) then (inr (), set_disk (disk w ∖ {[path]}) w)
    else (inl {| message := "ENOENT: no such file or directory, unlink '" +:+ path +:+ "'" |}, w)).

#[global] Instance mem_backend : Backend World := {|
  connectMongoDB := call Connect (ret ());
  findById := mem_findById;
  findByIdAndDelete := mem_findByIdAndDelete;
  pool_query := mem_query;
  unlink := mem_unlink;
  console_error := log;
  process_cwd := cwd;
|}.

(** A record as the registry names it: its id and the backend it lives
    in. *)
Inductive FileRef : Type :=
| DocumentRef (id : string)
| RelationalRef (id : Z).

(** The entry of [files] that the page sends for a record. *)
Definition fileInfoOf (r : FileRef) : json :=
  match r with
  | DocumentRef s => JObject [("id", JString s); ("storageType", JString "mongodb")]
  | RelationalRef n => JObject [("id", JNumber n); ("storageType", JString "postgres")]
  end.

Definition bulkDeleteRequest (refs : list FileRef) : Error + json :=
  inr (JObject [("action", JString "delete"); ("files", JArray (map fileInfoOf refs))]).

(** The stored path of a record, [None] when its backend has no such
    record. *)
Definition storedPath (w : World) (r : FileRef) : option string :=
  match r with
  | DocumentRef s => filePath <$> mongo w !! s
  | RelationalRef n => file_path <$> pg w !! n
  end.

(** The calls that remove the metadata of a record. *)
Definition metadataCalls (r : FileRef) : list event :=
  match r with
  | DocumentRef s =>
      [Connect; FindById (Some (JString s)); FindByIdAndDelete (Some (JString s))]
  | RelationalRef n =>
      [Query selectSql [Some (JNumber n)]; Query deleteSql [Some (JNumber n)]]
  end.

(** The first failure that the script holds for the metadata calls of a
    record. *)
Fixpoint firstFault (n : nat) (script : list (option Error)) : option Error :=
  match n, script with
  | S _, Some e :: _ => Some e
  | S n', None :: rest => firstFault n' rest
  | _, _ => None
  end.

Definition metadataFault (r : FileRef) (script : list (option Error)) : option Error :=
  firstFault (length (metadataCalls r)) script.

(** The blob root, and what lying inside it means for a normalized
    path. *)
Definition blobRoot (cwd : string) : string := NodePath.join [cwd; "public"].

Definition insideRoot (cwd path : string) : Prop :=
  path = blobRoot cwd \/
  exists rest, path = blobRoot cwd +:+ "/" +:+ rest /\ ".." ∉ NodePath.split rest.

(** No stored path of either store has a [..] segment. *)
Definition pathsClean (w : World) : Prop :=
  map_Forall (fun _ doc => ".." ∉ NodePath.split (filePath doc)) (mongo w) /\
  map_Forall (fun _ row => ".." ∉ NodePath.split (file_path row)) (pg w).

(** The calls made between two worlds. *)
Definition callsSince (w w' : World) : list event := drop (length (trace w)) (trace w').

(** What a run of the handler may do to the world: the stores only lose
    records, and the calls it adds to the trace satisfy [ok]. *)
Definition evolves (ok : event -> Prop) (w w' : World) : Prop :=
  cwd w' = cwd w /\ mongo w' ⊆ mongo w /\ pg w' ⊆ pg w /\
  exists calls, trace w' = trace w ++ calls /\ Forall ok calls.

Definition notUnlink (ev : event) : Prop :=
  match ev with Unlink _ => False | _ => True end.

Definition unlinkInside (cwd : string) (ev : event) : Prop :=
  match ev with Unlink path => insideRoot cwd path | _ => True end.

(** Five records, three relational and two documents, each with its file
    on disk, and nothing scripted to fail. *)
Definition fiveFiles : World := {|
  mongo := {[ "65f1a0c2e4b0a1b2c3d4e5f6" := {| filePath := "/uploads/notes.json" |};
              "65f1a1c2e4b0a1b2c3d4e5f7" := {| filePath := "/uploads/todo.json" |} ]};
  pg := {[ 1%Z := {| file_path := "/uploads/report.json" |};
           2%Z := {| file_path := "/uploads/budget.json" |};
           3%Z := {| file_path := "/uploads/plan.json" |} ]};
  disk := {[ "/srv/app/public/uploads/notes.json"; "/srv/app/public/uploads/todo.json";
             "/srv/app/public/uploads/report.json"; "/srv/app/public/uploads/budget.json";
             "/srv/app/public/uploads/plan.json" ]};
  cwd := "/srv/app";
  faults := [];
  trace := [];
  console := [];
|}.

Definition fiveValid : list FileRef :=
  [RelationalRef 1; DocumentRef "65f1a0c2e4b0a1b2c3d4e5f6"; RelationalRef 2; DocumentRef "65f1a1c2e4b0a1b2c3d4e5f7";
   RelationalRef 3].

(** The same stores when the document store fails on the first lookup. *)
Definition fiveFilesOneFault : World := {|
  mongo := mongo fiveFiles; pg := pg fiveFiles; disk := disk fiveFiles;
  cwd := cwd fiveFiles;
  faults := [None; None; None; None; Some {| message := "connection refused" |}];
  trace := []; console := [];
|}.

(** A document whose stored path climbs out of the blob root, and the file
    it reaches. *)
Definition escaping : World := {|
  mongo := {[ "65f1a2c2e4b0a1b2c3d4e5f8" := {| filePath := "/../../../etc/passwd" |} ]};
  pg := ∅;
  disk := {[ "/etc/passwd" ]};
  cwd := "/srv/app";
  faults := [];
  trace := [];
  console := [];
|}.

End Mem.

(** ** The preview effect of the modal and the pairs of the page *)

Module Views.
Import Js JsonMergeModal Page.

(** The effect on [selectedFiles] and [mergeStrategy] once its timer has
    fired: a preview is generated when both files are chosen and dropped
    otherwise. *)
Definition previewEffect (fetchJson : string -> option json) (m : Modal) : Modal :=
  match selectedFiles m with
  | (Some _, Some _) => generatePreview fetchJson m
  | _ => setPreview None m
  end.

(** What identifies a record on the page. *)
Definition pairOf (f : FileMetadata) : Id * string := (id f, storageType f).

(** A key made of decimal digits only.  Such a key may be an array index,
    which JavaScript enumerates before the other keys of an object. *)
Fixpoint digitsOnly (s : string) : bool :=
  match s with
  | EmptyString => false
  | String c EmptyString => bool_decide (is_Some (Ascii.is_nat c))
  | String c rest => bool_decide (is_Some (Ascii.is_nat c)) && digitsOnly rest
  end.

End Views.

(** ** What a run may do to the reference backend *)

Module Footprint.
Import Js BulkRoute Mem.

(** The calls that go to the document store, and those that go to the
    relational store. *)
Definition documentCall (ev : event) : Prop :=
  match ev with
  | Connect | FindById _ | FindByIdAndDelete _ => True
  | _ => False
  end.

Definition relationalCall (ev : event) : Prop :=
  match ev with
  | Query _ _ => True
  | _ => False
  end.

(** A path segment that normalization keeps as it is: not empty, neither
    [.] nor [..], and free of separators. *)
Definition plainSegment (seg : string) : Prop :=
  seg <> "" /\ seg <> "." /\ seg <> ".." /\ NodePath.split seg = [seg].

(** The calls that look a record up without changing anything. *)
Definition lookupCalls (r : FileRef) : list event :=
  match r with
  | DocumentRef s => [Connect; FindById (Some (JString s))]
  | RelationalRef n => [Query selectSql [Some (JNumber n)]]
  end.

End Footprint.

(** ** Properties of property lists *)

Module PropsFacts.
Import Js.

Lemma getOwn_None key (props : props_t) : getOwn key props = None <-> key ∉ keys props.
Proof.
  induction props as [|[k v] rest IH]; simpl.
  - split; [intros _; apply not_elem_of_nil | done].
  - case_decide; subst.
    + split; [done | intros H; exfalso; apply H; left].
    + rewrite IH, not_elem_of_cons. split; [intros ?; split; [congruence | done] | by intros [_ ?]].
Qed.

Lemma getOwn_Some_elem key v (props : props_t) : getOwn key props = Some v -> key ∈ keys props.
Proof.
  intros H. destruct (decide (key ∈ keys props)) as [|Hn]; [done|].
  apply getOwn_None in Hn. congruence.
Qed.

Lemma elem_keys_getOwn key (props : props_t) : key ∈ keys props <-> is_Some (getOwn key props).
Proof.
  split.
  - intros H. destruct (getOwn key props) eqn:E; [eauto|].
    apply getOwn_None in E. done.
  - intros [v Hv]. by eapply getOwn_Some_elem.
Qed.

Lemma getOwn_assign_eq key v (props : props_t) : getOwn key (assign key v props) = Some v.
Proof.
  induction props as [|[k x] rest IH]; simpl.
  - by rewrite decide_True.
  - case_decide; simpl; [by rewrite decide_True | by rewrite decide_False].
Qed.

Lemma getOwn_assign_ne key key' v (props : props_t) :
  key <> key' -> getOwn key' (assign key v props) = getOwn key' props.
Proof.
  intros Hne. induction props as [|[k x] rest IH]; simpl.
  - by rewrite decide_False.
  - case_decide; simpl; subst.
    + by rewrite !decide_False.
    + case_decide; [done | apply IH].
Qed.

Lemma assign_fresh key v (props : props_t) :
  key ∉ keys props -> assign key v props = props ++ [(key, v)].
Proof.
  induction props as [|[k x] rest IH]; simpl; [done|].
  rewrite not_elem_of_cons. intros [Hne Hnin].
  rewrite decide_False by done. by rewrite IH.
Qed.

Lemma assign_middle key v x (seen todo : props_t) :
  key ∉ keys seen -> assign key v (seen ++ (key, x) :: todo) = seen ++ (key, v) :: todo.
Proof.
  induction seen as [|[k y] rest IH]; simpl.
  - intros _. by rewrite decide_True.
  - rewrite not_elem_of_cons. intros [Hne Hnin].
    rewrite decide_False by done. by rewrite IH.
Qed.

Lemma getOwn_middle key x (seen todo : props_t) :
  key ∉ keys seen -> getOwn key (seen ++ (key, x) :: todo) = Some x.
Proof.
  induction seen as [|[k y] rest IH]; simpl.
  - intros _. by rewrite decide_True.
  - rewrite not_elem_of_cons. intros [Hne Hnin].
    rewrite decide_False by done. by apply IH.
Qed.

Lemma keys_assign key v (props : props_t) :
  keys (assign key v props) = if hasKey key props then keys props else keys props ++ [key].
Proof.
  unfold hasKey. induction props as [|[k x] rest IH]; simpl; [done|].
  case_decide; simpl; [done|].
  rewrite IH. by destruct (getOwn key rest).
Qed.

Lemma elem_keys_assign key' key v (props : props_t) :
  key' ∈ keys props -> key' ∈ keys (assign key v props).
Proof.
  intros Hin. rewrite keys_assign. destruct (hasKey key props); [done|].
  apply elem_of_app. by left.
Qed.

Lemma NoDup_keys_assign key v (props : props_t) :
  NoDup (keys props) -> NoDup (keys (assign key v props)).
Proof.
  intros Hnd. rewrite keys_assign. unfold hasKey.
  destruct (getOwn key props) eqn:E; [done|].
  apply getOwn_None in E. apply NoDup_app. split_and!; [done| |apply NoDup_singleton].
  intros k Hk. rewrite list_elem_of_singleton. by intros ->.
Qed.

(** Spreading a duplicate-free object into what has none of its keys copies
    it behind. *)
Lemma spread_app (result source : props_t) :
  NoDup (keys result ++ keys source) -> spread result source = result ++ source.
Proof.
  unfold spread. revert result.
  induction source as [|[k v] rest IH]; intros result Hnd; simpl.
  - by rewrite app_nil_r.
  - assert (k ∉ keys result) as Hk.
    { apply NoDup_app in Hnd as (_ & Hd & _). intros Hin. apply (Hd k Hin). left. }
    rewrite assign_fresh by done. rewrite IH.
    + by rewrite <- app_assoc.
    + unfold keys in *. rewrite fmap_app, <- app_assoc. done.
Qed.

Lemma spread_nil (source : props_t) : NoDup (keys source) -> spread [] source = source.
Proof. intros H. by rewrite spread_app. Qed.

Lemma getOwn_spread key (result source : props_t) :
  NoDup (keys source) ->
  getOwn key (spread result source) =
    match getOwn key source with Some v => Some v | None => getOwn key result end.
Proof.
  unfold spread. revert result.
  induction source as [|[k v] rest IH]; intros result Hnd; simpl; [done|].
  apply NoDup_cons in Hnd as [Hk Hnd]. rewrite IH by done. simpl in *.
  case_decide; subst.
  - apply getOwn_None in Hk. rewrite Hk. apply getOwn_assign_eq.
  - destruct (getOwn key rest); [done|]. by apply getOwn_assign_ne.
Qed.

Lemma NoDup_keys_spread (result source : props_t) :
  NoDup (keys result) -> NoDup (keys (spread result source)).
Proof.
  unfold spread. revert result.
  induction source as [|[k v] rest IH]; intros result Hnd; simpl; [done|].
  apply IH. by apply NoDup_keys_assign.
Qed.

End PropsFacts.

(** ** Properties of [deepMerge] and of the strategy switch *)

Module MergeFacts.
Import Js JsonMergeModal MergeSpec PropsFacts.

Lemma wf_array items : wf (JArray items) <-> Forall wf items.
Proof.
  simpl. induction items as [|x rest IH]; [by split; [constructor|]|].
  rewrite Forall_cons, IH. done.
Qed.

Lemma wf_object props : wf (JObject props) <-> NoDup (keys props) /\ Forall (fun kv => wf kv.2) props.
Proof.
  simpl. apply and_iff_compat_l.
  induction props as [|kv rest IH]; [by split; [constructor|]|].
  rewrite Forall_cons, IH. done.
Qed.

Lemma wf_getOwn key v props : wf (JObject props) -> getOwn key props = Some v -> wf v.
Proof.
  rewrite wf_object. intros [_ Hall].
  induction Hall as [|[k x] rest Hx _ IH]; simpl; [done|].
  case_decide; [by intros [= <-] | done].
Qed.

Lemma deepMerge_arrays a1 a2 : deepMerge (JArray a1) (JArray a2) = JArray (a1 ++ a2).
Proof. done. Qed.

(** As long as the key [__proto__], where it is still to visit, is an own
    property of the result, the loop stays among the own properties and
    leaves [Object.prototype] above them. *)
Lemma mergeOnto_own rec (todo result : props_t) :
  ("__proto__" ∈ keys todo -> "__proto__" ∈ keys result) ->
  mergeOnto rec todo (result, ObjectPrototype) =
    (mergeProps (fun v1 v2 => (rec v1 v2).1) todo result, ObjectPrototype).
Proof.
  revert result. induction todo as [|[k v2] rest IH]; intros result Hown; [done|].
  simpl. destruct (getOwn k result) as [v1|] eqn:Hk.
  - apply IH. intros Hin. apply elem_keys_assign, Hown. by right.
  - apply getOwn_None in Hk.
    rewrite decide_False by (intros ->; apply Hk, Hown; left).
    apply IH. intros Hin. apply elem_keys_assign, Hown. by right.
Qed.

Lemma deepMerge_objects o1 o2 :
  NoDup (keys o1) -> ("__proto__" ∈ keys o2 -> "__proto__" ∈ keys o1) ->
  deepMerge (JObject o1) (JObject o2) = JObject (mergeProps deepMerge o2 o1).
Proof.
  intros Hnd Hown. unfold deepMerge at 1. simpl.
  rewrite spread_nil, mergeOnto_own by done. done.
Qed.

(** Whatever is not a pair of arrays or a pair of objects yields the second
    value. *)
Lemma deepMerge_override obj1 obj2 :
  (forall a1 a2, obj1 = JArray a1 -> obj2 = JArray a2 -> False) ->
  (forall o1 o2, obj1 = JObject o1 -> obj2 = JObject o2 -> False) ->
  deepMerge obj1 obj2 = obj2.
Proof.
  intros Harr Hobj. destruct obj1, obj2; try done.
  - exfalso; eauto.
  - exfalso; eauto.
Qed.

Lemma getOwn_mergeProps rec key (todo result : props_t) :
  NoDup (keys todo) ->
  getOwn key (mergeProps rec todo result) = atKey rec (getOwn key result) (getOwn key todo).
Proof.
  revert result. induction todo as [|[k v2] rest IH]; intros result Hnd; simpl.
  - by destruct (getOwn key result).
  - apply NoDup_cons in Hnd as [Hk Hnd]. simpl in Hk. rewrite IH by done.
    case_decide; subst.
    + apply getOwn_None in Hk. rewrite Hk.
      destruct (getOwn key result) as [v1|]; rewrite getOwn_assign_eq; done.
    + destruct (getOwn k result) as [v1|]; by rewrite getOwn_assign_ne.
Qed.

Lemma NoDup_keys_mergeProps rec (todo result : props_t) :
  NoDup (keys result) -> NoDup (keys (mergeProps rec todo result)).
Proof.
  revert result. induction todo as [|[k v2] rest IH]; intros result Hnd; simpl; [done|].
  apply IH. destruct (getOwn k result); by apply NoDup_keys_assign.
Qed.

(** Merging the properties of an object into that very object visits them
    in place, one after the other. *)
Lemma mergeProps_self rec (seen todo : props_t) :
  NoDup (keys seen ++ keys todo) ->
  mergeProps rec todo (seen ++ todo) = seen ++ map (fun kv => (kv.1, rec kv.2 kv.2)) todo.
Proof.
  revert seen. induction todo as [|[k v] rest IH]; intros seen Hnd; simpl; [done|].
  assert (k ∉ keys seen) as Hk.
  { apply NoDup_app in Hnd as (_ & Hd & _). intros Hin. apply (Hd k Hin). left. }
  rewrite getOwn_middle, assign_middle by done.
  specialize (IH (seen ++ [(k, rec v v)])).
  rewrite <- !app_assoc in IH. simpl in IH. apply IH.
  unfold keys in *. rewrite fmap_app, <- app_assoc. done.
Qed.

End MergeFacts.

(** ** The merge strategies against the specification *)

Module MergeTheorems.
Import Js JsonMergeModal MergeSpec PropsFacts MergeFacts.

Ltac nodup_keys := apply (bool_decide_unpack _); vm_compute; exact I.
Ltac wf_literal := simpl; repeat split; nodup_keys.

(** C5 asks that a key of the second object alone holds the second
    object's value.  At the key [__proto__] it does not: [key in result]
    finds the accessor of [Object.prototype], and the assignment sets the
    prototype of the result instead of creating a property.  The merged
    document has no such key, and a later key that the new prototype holds
    is merged with the value found there, although the first document has
    none.  The SHALLOW merge of the same documents keeps the key, and DEEP
    merge does when the first object has the key as well. *)
Theorem deepMerge_drops_proto_key :
  let obj1 := JObject [("a", num 1)] in
  let obj2 := JObject [("__proto__", JObject [("x", num 1)])] in
  let obj3 := JObject [("__proto__", JObject [("k", JObject [("x", num 1)])]);
                       ("k", JObject [("y", num 2)])] in
  wf obj1 /\ wf obj2 /\ wf obj3 /\
  keys (ownProps obj1) = ["a"] /\
  keys (ownProps obj2) = ["__proto__"] /\
  deepMergeResult obj1 obj2 =
    (JObject [("a", num 1)], ObjectValue [("x", num 1)] ObjectPrototype) /\
  keys (ownProps (deepMerge obj1 obj2)) = ["a"] /\
  deepMerge (JObject []) obj3 = JObject [("k", JObject [("x", num 1); ("y", num 2)])] /\
  merged shallow obj1 obj2 = JObject [("a", num 1); ("__proto__", JObject [("x", num 1)])] /\
  deepMerge obj2 obj2 = obj2.
Proof. simpl. split_and!; try done; try nodup_keys; by vm_compute. Qed.

(** C6. SHALLOW merge of two JSON objects is the object whose keys are the
    keys of either input, each key of the second input holding the second
    input's value and every other key the first input's; the example of the
    specification evaluates to exactly the expected document. *)
Theorem shallow_union_second_wins :
  (forall o1 o2, NoDup (keys o1) -> NoDup (keys o2) ->
     exists r, merged shallow (JObject o1) (JObject o2) = JObject r /\ NoDup (keys r) /\
       (forall key, key ∈ keys r <-> key ∈ keys o1 \/ key ∈ keys o2) /\
       (forall key v, getOwn key o2 = Some v -> getOwn key r = Some v) /\
       (forall key, getOwn key o2 = None -> getOwn key r = getOwn key o1))
  /\ merged shallow shallowLeft shallowRight = shallowExpected.
Proof.
  split; [|by vm_compute].
  intros o1 o2 Hnd1 Hnd2. eexists. split; [done|]. simpl.
  rewrite (spread_nil o1) by done.
  assert (forall key, getOwn key (spread o1 o2) =
            match getOwn key o2 with Some v => Some v | None => getOwn key o1 end) as Hget.
  { intros key. by apply getOwn_spread. }
  split_and!.
  - by apply NoDup_keys_spread.
  - intros key. rewrite !elem_keys_getOwn, Hget.
    destruct (getOwn key o2), (getOwn key o1); split; eauto; intros [[? ?]|[? ?]]; eauto; done.
  - intros key v Hv. by rewrite Hget, Hv.
  - intros key Hv. by rewrite Hget, Hv.
Qed.

Lemma shallow_union_second_wins_witness :
  exists r, merged shallow shallowLeft shallowRight = JObject r /\ NoDup (keys r) /\
    (forall key, key ∈ keys r <-> key ∈ ["a"; "b"] \/ key ∈ ["b"; "c"]) /\
    (forall key v, getOwn key [("b", num 3); ("c", num 4)] = Some v -> getOwn key r = Some v) /\
    (forall key, getOwn key [("b", num 3); ("c", num 4)] = None ->
                 getOwn key r = getOwn key [("a", num 1); ("b", num 2)]).
Proof.
  apply (proj1 shallow_union_second_wins
           [("a", num 1); ("b", num 2)] [("b", num 3); ("c", num 4)]); nodup_keys.
Defined.

(** C9, as stated, fails: in the DEEP merge of [[1]] with itself the outer
    array is concatenated with itself but the inner array is not. *)
Lemma inner_array_not_duplicated :
  let x := JArray [JArray [num 1]] in
  wf x /\
  deepMerge x x = JArray [JArray [num 1]; JArray [num 1]] /\
  dupEveryArray x = JArray [JArray [num 1; num 1]; JArray [num 1; num 1]] /\
  deepMerge x x <> dupEveryArray x.
Proof. simpl. split_and!; done. Qed.

(** C9, amended. DEEP merge of a JSON value with itself reproduces it except
    that every array reached from the root through object members only is
    concatenated with itself; the elements of such an array, arrays and
    objects included, are the original ones. *)
Theorem deepMerge_with_itself (x : json) : wf x -> deepMerge x x = dupMemberArrays x.
Proof.
  induction x as [| | | |items _|props IH] using json_ind; try done.
  intros Hwf. apply wf_object in Hwf as [Hnd Hall].
  rewrite deepMerge_objects by done. simpl. f_equal.
  pose proof (mergeProps_self deepMerge [] props Hnd) as Hself.
  simpl in Hself. rewrite Hself.
  apply map_ext_in. intros [k v] Hin. simpl. f_equal.
  rewrite Forall_forall in IH, Hall. apply list_elem_of_In in Hin.
  apply (IH _ Hin), (Hall _ Hin).
Qed.

Lemma deepMerge_with_itself_witness :
  deepMerge deepLeft deepLeft =
    JObject [("a", JObject [("x", num 1)]); ("arr", JArray [num 1; num 2; num 1; num 2])].
Proof. apply (deepMerge_with_itself deepLeft). wf_literal. Defined.

(** C10 asks that a key whose value is [null] in either object holds the
    second object's value in the result.  At the key [__proto__] of the
    second object alone it does not: the assignment of [null] goes through
    the accessor of [Object.prototype] and leaves the result without
    prototype and without the key.  The merge does not recurse into [null]
    there either; the value is lost in the assignment. *)
Theorem deepMerge_null_at_proto_key :
  let obj1 := JObject [("a", num 1)] in
  let obj2 := JObject [("__proto__", JNull)] in
  wf obj1 /\ wf obj2 /\
  ownProps obj2 = [("__proto__", JNull)] /\
  deepMergeResult obj1 obj2 = (JObject [("a", num 1)], NullPrototype) /\
  keys (ownProps (deepMerge obj1 obj2)) = ["a"].
Proof. simpl. split_and!; try done; try nodup_keys; by vm_compute. Qed.

End MergeTheorems.

(** ** Selection on the page and in the merge modal *)

Module SelectionTheorems.
Import Js JsonMergeModal Page.

Lemma sameRecord_spec (file f : FileMetadata) :
  sameRecord file f = true <-> id f = id file /\ storageType f = storageType file.
Proof.
  unfold sameRecord. rewrite andb_true_iff, !bool_decide_eq_true. done.
Qed.

(** Toggling a file on the page leaves every record of another
    [(id, storageType)] pair as it was, selected or not. *)
Lemma handleFileSelect_other (file g : FileMetadata) (prev : list FileMetadata) :
  sameRecord file g = false ->
  g ∈ handleFileSelect file prev <-> g ∈ prev.
Proof.
  intros Hother. unfold handleFileSelect.
  destruct (existsb (sameRecord file) prev).
  - rewrite !list_elem_of_In, filter_In. rewrite Hother. simpl. tauto.
  - rewrite elem_of_app, list_elem_of_singleton. split; [|by left].
    intros [Hin| ->]; [done|].
    assert (sameRecord file file = true) as Hsame by (by apply sameRecord_spec).
    congruence.
Qed.

(** Toggling a selected file removes the records of its pair and only
    those. *)
Lemma handleFileSelect_deselects (file : FileMetadata) (prev : list FileMetadata) :
  existsb (sameRecord file) prev = true ->
  forall g, g ∈ handleFileSelect file prev <-> g ∈ prev /\ sameRecord file g = false.
Proof.
  intros Hsel g. unfold handleFileSelect. rewrite Hsel.
  rewrite !list_elem_of_In, filter_In, negb_true_iff. done.
Qed.

(** C4 fails in the merge modal.  The page tells the two records apart,
    which share the id 7 and differ in their backend: selecting the document
    next to the relational record keeps both.  The first picker of the
    modal, asked for the document, resolves to the relational record; the
    second picker then shows the document as disabled and, asked for it,
    resolves to the relational record as well. *)
Theorem merge_picker_resolves_by_id_alone :
  let files := [relationalReport; documentNotes] in
  let m := onChangeFirst files (optionValue documentNotes) openedModal in
  id relationalReport = id documentNotes /\
  storageType relationalReport <> storageType documentNotes /\
  handleFileSelect documentNotes [relationalReport] = [relationalReport; documentNotes] /\
  (selectedFiles m).1 = Some relationalReport /\
  (selectedFiles m).1 <> Some documentNotes /\
  secondDisabled m documentNotes = true /\
  (selectedFiles (onChangeSecond files (optionValue documentNotes) m)).2
    = Some relationalReport.
Proof. cbv zeta. split_and!; by vm_compute. Qed.

End SelectionTheorems.

(** ** The bulk handler over any backend *)

Module RouteFacts.
Import Js BulkRoute.



Section AnyBackend.
Context {W : Type} `{Backend W}.

Lemma step_total results fileInfo (w : W) :
  reportable fileInfo ->
  step results fileInfo w =
    (inr (tally results fileInfo (deleteOne fileInfo w).1), (deleteOne fileInfo w).2).
Proof.
  intros [Hnn Hprint]. unfold step, try_catch, bind.
  destruct (deleteOne fileInfo w) as [[e|[]] w']; simpl; [|done].
  unfold readId, printed, errorEntry.
  destruct fileInfo; try done; simpl in *; unfold ret; by rewrite ?Hprint.
Qed.


Lemma outcomes_split files (w : W) :
  length (succeededIn (outcomes files w)) + length (failedIn (outcomes files w)) = length files.
Proof.
  revert w. induction files as [|f rest IH]; intros w; simpl; [done|].
  destruct (deleteOne f w) as [[e|[]] w']; simpl; specialize (IH w'); lia.
Qed.

Lemma forEach_total files results (w : W) :
  Forall reportable files ->
  forEach files results w =
    (inr {| success := success results + length (succeededIn (outcomes files w));
            failed := failed results + length (failedIn (outcomes files w));
            errors := errors results ++
                      map (fun o => errorEntry o.1 o.2) (failedIn (outcomes files w)) |},
     after files w).
Proof.
  intros Hall. revert results w.
  induction Hall as [|f rest Hf _ IH]; intros results w; simpl.
  - unfold ret. rewrite !Nat.add_0_r, app_nil_r. by destruct results.
  - unfold bind. rewrite step_total by done.
    destruct (deleteOne f w) as [[e|[]] w']; simpl; rewrite IH; simpl.
    + do 2 f_equal. f_equal; [lia|]. by rewrite <- app_assoc.
    + do 2 f_equal. f_equal. lia.
Qed.

(** A delete request over at least one entry, each of which the handler
    can report, is answered with the tally of the outcomes. *)
Lemma POST_delete (props : props_t) (files : list json) (w : W) :
  getOwn "action" props = Some (JString "delete") ->
  getOwn "files" props = Some (JArray files) ->
  files <> [] ->
  Forall reportable files ->
  let os := outcomes files w in
  let results :=
    {| success := length (succeededIn os); failed := length (failedIn os);
       errors := map (fun o => errorEntry o.1 o.2) (failedIn os) |} in
  POST (inr (JObject props)) w =
    ({| status := 200;
        body := BulkBody ("Deleted " +:+ pretty (success results) +:+
                          " files successfully") results |},
     after files w).
Proof.
  intros Haction Hfiles Hne Hall os results.
  assert (bool_decide (length files = 0) = false) as Hlen.
  { apply bool_decide_eq_false_2. by destruct files. }
  unfold POST, handle, bind, destructureBody, ret. cbn -[forEach pretty].
  rewrite Haction, Hfiles. cbn -[forEach pretty]. rewrite Hlen.
  rewrite (bool_decide_eq_false_2 ("delete" = "")) by done.
  rewrite (bool_decide_eq_true_2 ("delete" = "delete")) by done.
  cbn -[forEach pretty]. rewrite forEach_total by done. done.
Qed.

End AnyBackend.

End RouteFacts.

Module RouteTheorems.
Import Js BulkRoute RouteFacts Mem.



(** C7. A bulk request whose [files] is the empty array is answered with
    status 400, whatever its action, and the world is left as it was: no
    call has reached a backend. *)
Theorem empty_batch_is_rejected {W : Type} `{Backend W} (props : props_t) (w : W) :
  getOwn "files" props = Some (JArray []) ->
  POST (inr (JObject props)) w =
    ({| status := 400; body := ErrorBody "Action and files array are required" |}, w).
Proof.
  intros Hfiles. unfold POST, handle, bind, destructureBody, ret. simpl.
  rewrite Hfiles. simpl. by rewrite !orb_true_r.
Qed.

Lemma empty_batch_is_rejected_witness :
  POST (inr (JObject [("action", JString "delete"); ("files", JArray [])])) fiveFiles =
    ({| status := 400; body := ErrorBody "Action and files array are required" |}, fiveFiles).
Proof.
  apply (empty_batch_is_rejected [("action", JString "delete"); ("files", JArray [])] fiveFiles).
  reflexivity.
Defined.

End RouteTheorems.

(** ** Paths that stay below the blob root *)

Module PathFacts.
Import NodePath.

Lemma append_cons c (s t : string) : String c s +:+ t = String c (s +:+ t).
Proof. done. Qed.

Lemma append_empty_l (t : string) : "" +:+ t = t.
Proof. done. Qed.

Lemma append_nil_r (s : string) : s +:+ "" = s.
Proof. induction s as [|c s IH]; [done|]. by rewrite append_cons, IH. Qed.

Lemma append_assoc (a b c : string) : (a +:+ b) +:+ c = a +:+ b +:+ c.
Proof. induction a as [|x a IH]; [done|]. by rewrite !append_cons, IH. Qed.

Lemma split_nonempty (s : string) : split s <> [].
Proof.
  induction s as [|c s IH]; simpl; [done|].
  case_decide; [done|]. by destruct (split s).
Qed.

Lemma split_append (a b : string) : split (a +:+ "/" +:+ b) = split a ++ split b.
Proof.
  induction a as [|c a IH]; [done|].
  rewrite append_cons. simpl.
  case_decide; rewrite IH; [done|].
  pose proof (split_nonempty a). by destruct (split a).
Qed.

(** A segment is free of separators when splitting it gives it back. *)
Lemma split_segments (s seg : string) : seg ∈ split s -> split seg = [seg].
Proof.
  revert seg. induction s as [|c s IH]; simpl; intros seg.
  - by intros ->%list_elem_of_singleton.
  - case_decide as Hc.
    + intros [->|Hin]%elem_of_cons; [done | by apply IH].
    + pose proof (split_nonempty s) as Hne.
      destruct (split s) as [|seg0 segs]; [done|].
      intros [->|Hin]%elem_of_cons.
      * simpl. rewrite decide_False by done. rewrite (IH seg0) by left. done.
      * apply IH. by right.
Qed.

Lemma split_join (segs : list string) :
  segs <> [] -> (forall seg, seg ∈ segs -> split seg = [seg]) ->
  split (Js.join "/" segs) = segs.
Proof.
  induction segs as [|p [|q rest] IH]; intros Hne Hfree; [done| |].
  - simpl. apply Hfree. left.
  - change (Js.join "/" (p :: q :: rest)) with (p +:+ "/" +:+ Js.join "/" (q :: rest)).
    rewrite split_append, IH, (Hfree p); [done|left|done|].
    intros seg Hin. apply Hfree. by right.
Qed.

Lemma join_app (xs ys : list string) :
  xs <> [] -> ys <> [] ->
  Js.join "/" (xs ++ ys) = Js.join "/" xs +:+ "/" +:+ Js.join "/" ys.
Proof.
  intros Hxs Hys. induction xs as [|p [|q rest] IH]; [done| |].
  - simpl. by destruct ys.
  - change (Js.join "/" ((p :: q :: rest) ++ ys))
      with (p +:+ "/" +:+ Js.join "/" ((q :: rest) ++ ys)).
    rewrite IH by done.
    change (Js.join "/" (p :: q :: rest)) with (p +:+ "/" +:+ Js.join "/" (q :: rest)).
    by rewrite !append_assoc.
Qed.

Lemma join_not_empty (segs : list string) :
  (exists seg, seg ∈ segs /\ seg <> "") -> Js.join "/" segs <> "".
Proof.
  destruct segs as [|p [|q rest]]; intros (seg & Hin & Hne).
  - by apply elem_of_nil in Hin.
  - apply list_elem_of_singleton in Hin as ->. done.
  - change (Js.join "/" (p :: q :: rest)) with (p +:+ "/" +:+ Js.join "/" (q :: rest)).
    destruct p; [by rewrite append_empty_l | by rewrite append_cons].
Qed.

Lemma normalizeSegments_stack b segs res :
  normalizeSegments b segs res = rev (stackAfter b segs res).
Proof.
  revert res. induction segs as [|seg rest IH]; intros res; simpl; [done|].
  repeat case_match; apply IH.
Qed.

Lemma stackAfter_app b xs ys res :
  stackAfter b (xs ++ ys) res = stackAfter b ys (stackAfter b xs res).
Proof.
  revert res. induction xs as [|seg rest IH]; intros res; simpl; [done|].
  repeat case_match; apply IH.
Qed.

Lemma stackAfter_kept b segs res :
  ".." ∉ segs -> stackAfter b segs res = rev (kept segs) ++ res.
Proof.
  revert res. induction segs as [|seg rest IH]; intros res Hdots; simpl; [done|].
  apply not_elem_of_cons in Hdots as [Hseg Hrest].
  destruct (bool_decide (seg = "") || bool_decide (seg = ".")) eqn:Hskip; simpl.
  - by apply IH.
  - rewrite bool_decide_eq_false_2 by done. rewrite IH by done.
    by rewrite <- app_assoc.
Qed.

Lemma kept_subset seg segs : seg ∈ kept segs -> seg ∈ segs /\ seg <> "".
Proof.
  unfold kept. rewrite list_elem_of_In, filter_In, <- list_elem_of_In.
  intros [Hin Hk]. split; [done|]. intros ->. done.
Qed.

Lemma endsWithSlash_append (a b : string) :
  b <> "" -> endsWithSlash (a +:+ b) = endsWithSlash b.
Proof.
  intros Hb. induction a as [|c a IH]; [done|].
  rewrite append_cons. simpl. rewrite IH.
  destruct (a +:+ b) eqn:E; [|done].
  destruct a; [|done]. by rewrite append_empty_l in E.
Qed.

Lemma normalize_absolute (path : string) :
  startsWithSlash path = true ->
  normalize path =
    let p := Js.join "/" (rev (stackAfter false (split path) [])) in
    if bool_decide (p = "") then "/"
    else "/" +:+ p +:+ (if endsWithSlash path then "/" else "").
Proof.
  intros Habs. unfold normalize. rewrite Habs, normalizeSegments_stack. simpl.
  rewrite bool_decide_eq_false_2; [done|]. by destruct path.
Qed.

Lemma join_root (cwd : string) :
  cwd <> "" -> join [cwd; "public"] = normalize (cwd +:+ "/" +:+ "public").
Proof.
  intros Hcwd. unfold join. simpl.
  rewrite (bool_decide_eq_false_2 (cwd = "")) by done. done.
Qed.

Lemma join_below_root (cwd clean : string) :
  cwd <> "" -> clean <> "" ->
  join [cwd; "public"; clean] = normalize (cwd +:+ "/" +:+ "public" +:+ "/" +:+ clean).
Proof.
  intros Hcwd Hclean. unfold join. simpl.
  rewrite (bool_decide_eq_false_2 (cwd = "")), (bool_decide_eq_false_2 (clean = "")) by done.
  done.
Qed.

Lemma join_at_root (cwd : string) :
  cwd <> "" -> join [cwd; "public"; ""] = join [cwd; "public"].
Proof.
  intros Hcwd. unfold join. simpl.
  by rewrite (bool_decide_eq_false_2 (cwd = "")) by done.
Qed.

Lemma rootSegments_join (cwd : string) : Js.join "/" (rootSegments cwd) <> "".
Proof.
  apply join_not_empty. exists "public". split; [|done].
  unfold rootSegments. apply elem_of_app. right. left.
Qed.

Lemma blobRoot_segments (cwd : string) :
  startsWithSlash cwd = true ->
  join [cwd; "public"] = "/" +:+ Js.join "/" (rootSegments cwd).
Proof.
  intros Habs. assert (cwd <> "") as Hcwd by (by destruct cwd).
  rewrite join_root by done. rewrite normalize_absolute by (by destruct cwd).
  cbv zeta. rewrite split_append, stackAfter_app.
  change (stackAfter false (split "public") ?res) with ("public" :: res).
  change (rev ("public" :: ?res)) with (rev res ++ ["public"]).
  fold (rootSegments cwd).
  rewrite bool_decide_eq_false_2 by apply rootSegments_join.
  rewrite endsWithSlash_append by done.
  change (endsWithSlash "public") with false. by rewrite append_nil_r.
Qed.

Lemma below_root_segments (cwd clean : string) :
  startsWithSlash cwd = true -> clean <> "" -> ".." ∉ split clean ->
  join [cwd; "public"; clean] =
    "/" +:+ Js.join "/" (rootSegments cwd ++ kept (split clean)) +:+
    (if endsWithSlash clean then "/" else "").
Proof.
  intros Habs Hclean Hdots. assert (cwd <> "") as Hcwd by (by destruct cwd).
  rewrite join_below_root by done. rewrite normalize_absolute by (by destruct cwd).
  cbv zeta. rewrite !split_append, !stackAfter_app.
  change (stackAfter false (split "public") ?res) with ("public" :: res).
  rewrite stackAfter_kept by done.
  rewrite rev_app_distr, rev_involutive.
  change (rev ("public" :: ?res)) with (rev res ++ ["public"]).
  fold (rootSegments cwd).
  rewrite bool_decide_eq_false_2; cycle 1.
  { apply join_not_empty. exists "public". split; [|done].
    unfold rootSegments. rewrite !elem_of_app. left. right. left. }
  assert (endsWithSlash (cwd +:+ "/" +:+ "public" +:+ "/" +:+ clean) = endsWithSlash clean)
    as ->; [|done].
  rewrite endsWithSlash_append by done.
  change ("/" +:+ "public" +:+ "/" +:+ clean) with ("/public/" +:+ clean).
  by apply endsWithSlash_append.
Qed.

(** A stored path without [..] resolves to the blob root or below it. *)
Lemma absolutePath_inside (cwd p : string) :
  startsWithSlash cwd = true -> ".." ∉ split p ->
  Mem.insideRoot cwd (BulkRoute.absolutePathOf cwd p).
Proof.
  intros Habs Hdots. assert (cwd <> "") as Hcwd by (by destruct cwd).
  unfold Mem.insideRoot, Mem.blobRoot, BulkRoute.absolutePathOf.
  set (clean := if startsWithSlash p then slice1 p else p).
  assert (".." ∉ split clean) as Hclean.
  { subst clean. destruct p as [|c p]; [done|]. simpl in *.
    case_bool_decide as Hc; [|done]. subst c.
    rewrite decide_True in Hdots by done. by apply not_elem_of_cons in Hdots as [_ ?]. }
  destruct (decide (clean = "")) as [->|Hne].
  { left. by apply join_at_root. }
  rewrite below_root_segments, blobRoot_segments by done.
  destruct (kept (split clean)) as [|k ks] eqn:Hk.
  - rewrite app_nil_r. destruct (endsWithSlash clean).
    + right. exists "". split; [by rewrite !append_assoc, append_nil_r|].
      by intros ?%list_elem_of_singleton.
    + left. by rewrite append_nil_r.
  - right. exists (Js.join "/" (k :: ks) +:+ (if endsWithSlash clean then "/" else "")).
    split.
    + rewrite join_app; [by rewrite !append_assoc| |done].
      unfold rootSegments. by destruct (rev (stackAfter false (split cwd) [])).
    + assert (split (Js.join "/" (k :: ks)) = k :: ks) as Hsplit.
      { apply split_join; [done|]. intros seg Hin. rewrite <- Hk in Hin.
        apply kept_subset in Hin as [Hin _]. by eapply split_segments. }
      assert (".." ∉ k :: ks) as Hks.
      { rewrite <- Hk. intros Hin. by apply kept_subset in Hin as [Hin _]. }
      destruct (endsWithSlash clean).
      * replace (Js.join "/" (k :: ks) +:+ "/") with (Js.join "/" (k :: ks) +:+ "/" +:+ "")
          by done.
        rewrite split_append, Hsplit. rewrite elem_of_app. intros [Hin|Hin]; [done|].
        by apply list_elem_of_singleton in Hin.
      * by rewrite append_nil_r, Hsplit.
Qed.

End PathFacts.

(** ** The bulk handler over the reference backend *)

Module MemFacts.
Import Js BulkRoute Mem.

Lemma destructure_document s (w : World) :
  destructure (fileInfoOf (DocumentRef s)) w =
    (inr (Some (JString s), Some (JString "mongodb")), w).
Proof. by vm_compute. Qed.

Lemma destructure_relational n (w : World) :
  destructure (fileInfoOf (RelationalRef n)) w =
    (inr (Some (JNumber n), Some (JString "postgres")), w).
Proof. by vm_compute. Qed.

Lemma deleteOne_document s :
  deleteOne (fileInfoOf (DocumentRef s)) =
    bind (bind connectMongoDB (fun _ =>
            bind (findById (Some (JString s))) (fun file =>
              match file with
              | Some f => bind (findByIdAndDelete (Some (JString s)))
                               (fun _ => ret (Some (filePath f)))
              | None => ret None
              end)))
         deletePhysical.
Proof. done. Qed.

Lemma deleteOne_relational n :
  deleteOne (fileInfoOf (RelationalRef n)) =
    bind (bind (pool_query selectSql [Some (JNumber n)]) (fun result =>
            match rows result with
            | row :: _ => bind (pool_query deleteSql [Some (JNumber n)])
                               (fun _ => ret (Some (file_path row)))
            | [] => ret None
            end))
         deletePhysical.
Proof. done. Qed.

Lemma mem_query_select n :
  mem_query selectSql [Some (JNumber n)] =
    call (Query selectSql [Some (JNumber n)]) (fun w =>
      (inr {| rows := match pg w !! n with Some row => [row] | None => [] end |}, w)).
Proof. done. Qed.

Lemma mem_query_delete n :
  mem_query deleteSql [Some (JNumber n)] =
    call (Query deleteSql [Some (JNumber n)]) (fun w =>
      (inr {| rows := [] |}, set_pg (delete n (pg w)) w)).
Proof. done. Qed.

Lemma storedPath_delete_document (w : World) s r :
  storedPath w r = None -> storedPath (set_mongo (delete s (mongo w)) w) r = None.
Proof.
  destruct r as [s'|n]; simpl; [|done].
  rewrite !fmap_None. intros Hnone.
  destruct (decide (s = s')) as [->|Hne]; [apply lookup_delete_eq|].
  by rewrite lookup_delete_ne.
Qed.

Lemma storedPath_delete_relational (w : World) n r :
  storedPath w r = None -> storedPath (set_pg (delete n (pg w)) w) r = None.
Proof.
  destruct r as [s|n']; simpl; [done|].
  rewrite !fmap_None. intros Hnone.
  destruct (decide (n = n')) as [->|Hne]; [apply lookup_delete_eq|].
  by rewrite lookup_delete_ne.
Qed.

Ltac next_fault fs := destruct fs as [|[?|] fs].

Lemma storedPath_weaken (w w' : World) r :
  mongo w' ⊆ mongo w -> pg w' ⊆ pg w -> storedPath w r = None -> storedPath w' r = None.
Proof.
  intros Hm Hp. destruct r; simpl; rewrite !fmap_None; intros Hnone;
    eapply lookup_weaken_None; eauto.
Qed.

(** The physical deletion never throws, leaves both stores alone and makes
    at most the one call to [unlink]. *)
Lemma deletePhysical_spec (p : string) (w : World) :
  exists w' calls,
    deletePhysical (Some p) w = (inr (), w') /\
    trace w' = trace w ++ calls /\
    mongo w' = mongo w /\ pg w' = pg w /\ cwd w' = cwd w /\
    (p = "" /\ calls = [] /\ w' = w
     \/
     p <> "" /\
     (let blob := absolutePathOf (cwd w) p in
      calls = [Unlink blob] /\ faults w' = tail (faults w) /\
      (disk w' = disk w ∖ {[blob]} /\ console w' = console w
       \/
       disk w' = disk w /\
       exists msg,
         console w' = console w ++ ["Failed to delete physical file: " +:+ msg]))).
Proof.
  unfold deletePhysical. case_bool_decide as Hp.
  - exists w, []. rewrite app_nil_r. split_and!; try done. by left.
  - unfold try_catch, unlink; simpl. unfold mem_unlink, call.
    set (blob := absolutePathOf (cwd w) p).
    destruct (faults w) as [|[e|] fs] eqn:Hfs; simpl.
    1,3: case_bool_decide as Hin; simpl.
    all: do 2 eexists; (split; [reflexivity|]); simpl; rewrite ?Hfs;
      split_and!; try done; right; (split; [done|]); split_and!; try done;
      eauto.
Qed.

Lemma storedPath_ext (w w' : World) r :
  mongo w' = mongo w -> pg w' = pg w -> storedPath w' r = storedPath w r.
Proof. intros Hm Hp. destruct r; simpl; by rewrite ?Hm, ?Hp. Qed.

Lemma deleteOne_split (r : FileRef) :
  deleteOne (fileInfoOf r) =
    bind (deleteMetadata (getProp (fileInfoOf r) "id") (getProp (fileInfoOf r) "storageType"))
         deletePhysical.
Proof. by destruct r. Qed.

(** The metadata phase for a record that exists: either one of its calls
    throws, and nothing has changed but the trace, or the path is returned
    and the record is gone. *)
Lemma deleteMetadata_present (r : FileRef) (w : World) (p : string) :
  storedPath w r = Some p ->
  exists res w1 calls,
    deleteMetadata (getProp (fileInfoOf r) "id") (getProp (fileInfoOf r) "storageType") w
      = (res, w1) /\
    trace w1 = trace w ++ calls /\
    cwd w1 = cwd w /\ disk w1 = disk w /\ console w1 = console w /\
    match metadataFault r (faults w) with
    | Some e => res = inl e /\ (calls `prefix_of` metadataCalls r) /\ storedPath w1 r = Some p
    | None => res = inr (Some p) /\ calls = metadataCalls r /\ storedPath w1 r = None
    end.
Proof.
  intros Hp. destruct w as [mongo pg disk cwd fs trace console].
  destruct r as [s|n]; simpl in Hp.
  - apply fmap_Some in Hp as (doc & Hdoc & ->).
    change (deleteMetadata _ _) with
      (bind connectMongoDB (fun _ =>
         bind (findById (Some (JString s))) (fun file =>
           match file with
           | Some f => bind (findByIdAndDelete (Some (JString s)))
                            (fun _ => ret (Some (filePath f)))
           | None => ret None
           end))).
    unfold metadataFault.
    next_fault fs; [| |next_fault fs; [| |next_fault fs]];
      unfold bind, call; simpl; rewrite ?Hdoc; simpl;
      do 3 eexists; (split; [reflexivity|]); simpl;
      (split; [rewrite <- ?app_assoc; reflexivity|]);
      split_and!; try done; try (by eexists); try (by rewrite Hdoc);
      by rewrite lookup_delete_eq.
  - apply fmap_Some in Hp as (row & Hrow & ->).
    change (deleteMetadata _ _) with
      (bind (pool_query selectSql [Some (JNumber n)]) (fun result =>
         match rows result with
         | row :: _ => bind (pool_query deleteSql [Some (JNumber n)])
                            (fun _ => ret (Some (file_path row)))
         | [] => ret None
         end)).
    unfold pool_query. simpl. rewrite mem_query_select, mem_query_delete.
    unfold metadataFault.
    next_fault fs; [| |next_fault fs];
      unfold bind, call; simpl; rewrite ?Hrow; simpl;
      do 3 eexists; (split; [reflexivity|]); simpl;
      (split; [rewrite <- ?app_assoc; reflexivity|]);
      split_and!; try done; try (by eexists); try (by rewrite Hrow);
      by rewrite lookup_delete_eq.
Qed.

(** With nothing scripted to fail, deleting a record returns, whether the
    record exists or not; the record is absent afterwards and no absent
    record has come back. *)
Lemma deleteOne_fault_free (r : FileRef) (w : World) :
  faults w = [] ->
  exists w',
    deleteOne (fileInfoOf r) w = (inr (), w') /\
    faults w' = [] /\ storedPath w' r = None /\
    forall r', storedPath w r' = None -> storedPath w' r' = None.
Proof.
  destruct w as [mongo pg disk cwd fs trace console]. simpl. intros ->.
  destruct r as [s|n].
  - rewrite deleteOne_document. unfold bind, call. cbn -[deletePhysical].
    destruct (mongo !! s) as [doc|] eqn:Hdoc; cbn -[deletePhysical].
    + match goal with
      | |- context [deletePhysical (Some ?p) ?W] =>
          destruct (deletePhysical_spec p W)
            as (w' & calls & Heq & _ & Hm & Hpg & _ & Hcases)
      end.
      exists w'. split; [done|]. simpl in *. split_and!.
      * destruct Hcases as [(_ & _ & ->)|(_ & _ & -> & _)]; done.
      * rewrite Hm. by rewrite lookup_delete_eq.
      * intros r'. apply storedPath_weaken; simpl.
        -- rewrite Hm. apply delete_subseteq.
        -- by rewrite Hpg.
    + eexists. split; [done|]. simpl. split_and!; [done | by rewrite Hdoc | done].
  - rewrite deleteOne_relational, mem_query_select, mem_query_delete.
    unfold bind, call. cbn -[deletePhysical].
    destruct (pg !! n) as [row|] eqn:Hrow; cbn -[deletePhysical].
    + match goal with
      | |- context [deletePhysical (Some ?p) ?W] =>
          destruct (deletePhysical_spec p W)
            as (w' & calls & Heq & _ & Hm & Hpg & _ & Hcases)
      end.
      exists w'. split; [done|]. simpl in *. split_and!.
      * destruct Hcases as [(_ & _ & ->)|(_ & _ & -> & _)]; done.
      * rewrite Hpg. by rewrite lookup_delete_eq.
      * intros r'. apply storedPath_weaken; simpl.
        -- by rewrite Hm.
        -- rewrite Hpg. apply delete_subseteq.
    + eexists. split; [done|]. simpl. split_and!; [done | by rewrite Hrow | done].
Qed.

Lemma batch_fault_free (refs : list FileRef) (w : World) :
  faults w = [] ->
  outcomes (map fileInfoOf refs) w = map (fun r => (fileInfoOf r, None)) refs /\
  forall r, r ∈ refs \/ storedPath w r = None ->
            storedPath (after (map fileInfoOf refs) w) r = None.
Proof.
  revert w. induction refs as [|r0 rest IH]; intros w Hfaults; simpl.
  { split; [done|]. intros r [Hin|Hnone]; [by apply elem_of_nil in Hin | done]. }
  destruct (deleteOne_fault_free r0 w Hfaults) as (w' & Hrun & Hfaults' & Hgone & Hkeep).
  rewrite Hrun. simpl. destruct (IH w' Hfaults') as [Hos Habsent].
  split; [by rewrite Hos|].
  intros r [[->|Hin]%elem_of_cons|Hnone]; apply Habsent; auto.
Qed.

Lemma succeededIn_all (files : list json) :
  succeededIn (map (fun f => (f, None)) files) = files.
Proof. induction files as [|f rest IH]; simpl; [done | by rewrite IH]. Qed.

Lemma failedIn_none (files : list json) : failedIn (map (fun f => (f, None)) files) = [].
Proof. induction files as [|f rest IH]; simpl; done. Qed.

Lemma fileInfoOf_reportable (refs : list FileRef) : Forall reportable (map fileInfoOf refs).
Proof. induction refs as [|r rest IH]; simpl; constructor; [by destruct r | done]. Qed.

(** Hence a whole batch is counted as succeeded. *)
Lemma POST_fault_free (refs : list FileRef) (w : World) :
  faults w = [] -> refs <> [] ->
  exists w',
    POST (bulkDeleteRequest refs) w =
      ({| status := 200;
          body := BulkBody ("Deleted " +:+ pretty (length refs) +:+ " files successfully")
                    {| success := length refs; failed := 0; errors := [] |} |}, w') /\
    forall r, r ∈ refs -> storedPath w' r = None.
Proof.
  intros Hfaults Hne. destruct (batch_fault_free refs w Hfaults) as [Hos Habsent].
  eexists. split; [|intros r Hin; apply Habsent; by left].
  unfold bulkDeleteRequest.
  rewrite (RouteFacts.POST_delete _ (map fileInfoOf refs));
    [|done|done|by destruct refs|apply fileInfoOf_reportable].
  rewrite Hos. rewrite <- (map_map fileInfoOf (fun f => (f, None : option string))).
  rewrite succeededIn_all, failedIn_none. simpl. by rewrite length_map.
Qed.

End MemFacts.

Module ContainFacts.
Import Js BulkRoute Mem MemFacts.

Lemma evolves_refl ok w : evolves ok w w.
Proof. split_and!; try done. exists []. by rewrite app_nil_r. Qed.

Lemma evolves_trans ok w1 w2 w3 : evolves ok w1 w2 -> evolves ok w2 w3 -> evolves ok w1 w3.
Proof.
  intros (Hc1 & Hm1 & Hp1 & calls1 & Ht1 & Hok1) (Hc2 & Hm2 & Hp2 & calls2 & Ht2 & Hok2).
  split_and!; [congruence | by etrans | by etrans |].
  exists (calls1 ++ calls2). split; [by rewrite Ht2, Ht1, app_assoc | by apply Forall_app].
Qed.

Lemma evolves_weaken (ok ok' : event -> Prop) w w' :
  (forall ev, ok ev -> ok' ev) -> evolves ok w w' -> evolves ok' w w'.
Proof.
  intros Himp (Hc & Hm & Hp & calls & Ht & Hok). split_and!; try done.
  exists calls. split; [done|]. eapply Forall_impl; eauto.
Qed.

Lemma evolves_enter ok ev w : ok ev -> evolves ok w (enter ev w).
Proof. intros Hok. split_and!; try done. exists [ev]. split; [done|]. by constructor. Qed.

Lemma deleteMetadata_quiet id storageType (w : World) res w' :
  deleteMetadata id storageType w = (res, w') ->
  evolves notUnlink w w' /\
  forall p, res = inr (Some p) ->
    (exists k doc, mongo w !! k = Some doc /\ filePath doc = p) \/
    (exists k row, pg w !! k = Some row /\ file_path row = p).
Proof.
  unfold deleteMetadata, bind, connectMongoDB, findById, findByIdAndDelete, pool_query. simpl.
  unfold mem_findById, mem_findByIdAndDelete, mem_query, call, ret.
  destruct w as [mongo pg disk cwd fs trace console]. simpl.
  intros Hrun.
  repeat (case_match; simplify_eq/=).
  all: split;
    [ unfold evolves; simpl; split_and!;
      [ done
      | first [done | apply delete_subseteq]
      | first [done | apply delete_subseteq]
      | eexists; split; [rewrite <- ?app_assoc; reflexivity | by repeat constructor] ]
    | intros p' Hp'; simplify_eq/= ].
  all: naive_solver.
Qed.

Lemma pathsClean_evolves ok w w' : evolves ok w w' -> pathsClean w -> pathsClean w'.
Proof.
  intros (_ & Hm & Hp & _) [Hdocs Hrows]. split.
  - intros k doc Hk. eapply (Hdocs k), lookup_weaken; eauto.
  - intros k row Hk. eapply (Hrows k), lookup_weaken; eauto.
Qed.

Lemma deletePhysical_contained p (w : World) res w' :
  NodePath.startsWithSlash (cwd w) = true -> (forall p', p = Some p' -> ".." ∉ NodePath.split p') ->
  deletePhysical p w = (res, w') ->
  evolves (unlinkInside (cwd w)) w w'.
Proof.
  intros Habs Hclean Hrun. destruct p as [p|]; cycle 1.
  { simpl in Hrun. injection Hrun as _ <-. apply evolves_refl. }
  destruct (deletePhysical_spec p w) as (w1 & calls & Heq & Htr & Hm & Hpg & Hcwd & Hcases).
  rewrite Heq in Hrun. injection Hrun as _ <-.
  split_and!; [done | by rewrite Hm | by rewrite Hpg |].
  exists calls. split; [done|].
  destruct Hcases as [(_ & -> & _)|(_ & -> & _)]; [constructor|].
  apply Forall_singleton. simpl.
  apply PathFacts.absolutePath_inside; [done | by apply Hclean].
Qed.

Lemma deleteOne_contained fileInfo (w : World) res w' :
  NodePath.startsWithSlash (cwd w) = true -> pathsClean w ->
  deleteOne fileInfo w = (res, w') ->
  evolves (unlinkInside (cwd w)) w w'.
Proof.
  intros Habs Hclean. unfold deleteOne, bind.
  destruct (destructure fileInfo w) as [[e|[id storageType]] w0] eqn:Hd.
  { intros [= _ <-]. destruct fileInfo; injection Hd as _ <-; apply evolves_refl. }
  assert (w0 = w) as -> by (destruct fileInfo; by injection Hd).
  destruct (deleteMetadata id storageType w) as [[e|p] w1] eqn:Hmeta;
    apply deleteMetadata_quiet in Hmeta as [Hquiet Hfrom].
  { intros [= _ <-]. eapply evolves_weaken; [|done]. by intros []. }
  intros Hrun.
  eapply evolves_trans; [eapply evolves_weaken; [|exact Hquiet]; by intros []|].
  destruct Hquiet as (Hcwd & _). rewrite <- Hcwd.
  eapply deletePhysical_contained; [by rewrite Hcwd| |done].
  intros p' ->. destruct Hclean as [Hdocs Hrows].
  destruct (Hfrom p' eq_refl) as [(k & doc & Hk & <-)|(k & row & Hk & <-)];
    [exact (Hdocs k doc Hk) | exact (Hrows k row Hk)].
Qed.

Lemma step_world results fileInfo (w : World) :
  (step results fileInfo w).2 = (deleteOne fileInfo w).2.
Proof.
  unfold step, try_catch, bind.
  destruct (deleteOne fileInfo w) as [[e|[]] w']; simpl; [|done].
  unfold readId, printed.
  destruct fileInfo; simpl; try done; by destruct (printThrowsVal _).
Qed.

Lemma forEach_contained files results (w : World) :
  NodePath.startsWithSlash (cwd w) = true -> pathsClean w ->
  evolves (unlinkInside (cwd w)) w (forEach files results w).2.
Proof.
  revert results w. induction files as [|f rest IH]; intros results w Habs Hclean; simpl.
  { apply evolves_refl. }
  unfold bind. pose proof (step_world results f w) as Hw.
  destruct (step results f w) as [[e|results'] w1]; simpl in Hw; subst w1;
    destruct (deleteOne f w) as [r w1] eqn:Hone;
    pose proof (deleteOne_contained _ _ _ _ Habs Hclean Hone) as Hev; simpl; [done|].
  eapply evolves_trans; [exact Hev|].
  destruct Hev as (Hcwd & Hrest). rewrite <- Hcwd. apply IH.
  - by rewrite Hcwd.
  - eapply pathsClean_evolves; [|exact Hclean]. split; [exact Hcwd | exact Hrest].
Qed.

Lemma POST_contained request (w : World) :
  NodePath.startsWithSlash (cwd w) = true -> pathsClean w ->
  evolves (unlinkInside (cwd w)) w (POST request w).2.
Proof.
  intros Habs Hclean. unfold POST.
  assert (evolves (unlinkInside (cwd w)) w (handle request w).2) as Hev.
  { unfold handle, bind.
    destruct request as [e|body]; simpl; [apply evolves_refl|].
    destruct body; simpl; try apply evolves_refl.
    repeat (case_match; simpl; try apply evolves_refl).
    all: match goal with
         | Hrun : forEach ?files ?results ?w0 = _ |- _ =>
             pose proof (forEach_contained files results w0 Habs Hclean) as Hev;
             rewrite Hrun in Hev; exact Hev
         end. }
  destruct (handle request w) as [[e|response] w']; simpl in *; [|done].
  destruct Hev as (? & ? & ? & ?). by split_and!.
Qed.

End ContainFacts.

Module MemTheorems.
Import Js BulkRoute Mem MemFacts.

(** C3. Deleting a record that exists calls the metadata store first.  When
    one of these calls throws, the deletion fails with that error, the
    record and the disk are as before and [unlink] has not been called.
    Otherwise the record is gone and the deletion reports success whatever
    [unlink] does: it is called once, with the stored path resolved below
    the blob root (not at all for an empty path), and either removes the
    file or throws, which adds one line to the console and nothing else. *)
Theorem delete_removes_metadata_before_blob (w : World) (r : FileRef) (p : string) :
  storedPath w r = Some p ->
  exists res w' calls,
    deleteOne (fileInfoOf r) w = (res, w') /\
    trace w' = trace w ++ calls /\
    match metadataFault r (faults w) with
    | Some e =>
        res = inl e /\ (calls `prefix_of` metadataCalls r) /\
        storedPath w' r = Some p /\ disk w' = disk w /\ console w' = console w
    | None =>
        res = inr () /\ storedPath w' r = None /\
        (p = "" /\ calls = metadataCalls r /\ disk w' = disk w /\ console w' = console w
         \/
         p <> "" /\
         (let blob := absolutePathOf (cwd w) p in
          calls = metadataCalls r ++ [Unlink blob] /\
          (disk w' = disk w ∖ {[blob]} /\ console w' = console w
           \/
           disk w' = disk w /\
           exists msg,
             console w' = console w ++ ["Failed to delete physical file: " +:+ msg])))
    end.
Proof.
  intros Hp.
  destruct (deleteMetadata_present r w p Hp)
    as (res1 & w1 & calls1 & Hrun & Htr & Hcwd & Hdisk & Hcon & Hcase).
  rewrite deleteOne_split. unfold bind at 1. rewrite Hrun.
  destruct (metadataFault r (faults w)) as [e|].
  - destruct Hcase as (-> & Hprefix & Hkept). by exists (inl e), w1, calls1.
  - destruct Hcase as (-> & -> & Hgone).
    destruct (deletePhysical_spec p w1)
      as (w' & calls & Heq & Htr' & Hm & Hpg & _ & Hcases).
    exists (inr ()), w', (metadataCalls r ++ calls). rewrite Heq.
    split; [done|]. split; [by rewrite Htr', Htr, app_assoc|]. split; [done|].
    split; [by rewrite (storedPath_ext w1 w' r Hm Hpg)|].
    rewrite Hcwd, Hdisk, Hcon in Hcases.
    destruct Hcases as [(-> & -> & ->)|(Hne & -> & _ & Hblob)].
    + left. by rewrite app_nil_r.
    + right. by split.
Qed.

Lemma delete_removes_metadata_before_blob_witness :
  exists res w' calls,
    deleteOne (fileInfoOf (DocumentRef "65f1a0c2e4b0a1b2c3d4e5f6")) fiveFilesOneFault = (res, w') /\
    trace w' = trace fiveFilesOneFault ++ calls /\
    match metadataFault (DocumentRef "65f1a0c2e4b0a1b2c3d4e5f6") (faults fiveFilesOneFault) with
    | Some e =>
        res = inl e /\ (calls `prefix_of` metadataCalls (DocumentRef "65f1a0c2e4b0a1b2c3d4e5f6")) /\
        storedPath w' (DocumentRef "65f1a0c2e4b0a1b2c3d4e5f6") = Some "/uploads/notes.json" /\
        disk w' = disk fiveFilesOneFault /\ console w' = console fiveFilesOneFault
    | None =>
        res = inr () /\ storedPath w' (DocumentRef "65f1a0c2e4b0a1b2c3d4e5f6") = None /\
        ("/uploads/notes.json" = "" /\ calls = metadataCalls (DocumentRef "65f1a0c2e4b0a1b2c3d4e5f6") /\
         disk w' = disk fiveFilesOneFault /\ console w' = console fiveFilesOneFault
         \/
         "/uploads/notes.json" <> "" /\
         (let blob := absolutePathOf (cwd fiveFilesOneFault) "/uploads/notes.json" in
          calls = metadataCalls (DocumentRef "65f1a0c2e4b0a1b2c3d4e5f6") ++ [Unlink blob] /\
          (disk w' = disk fiveFilesOneFault ∖ {[blob]} /\
           console w' = console fiveFilesOneFault
           \/
           disk w' = disk fiveFilesOneFault /\
           exists msg,
             console w' =
               console fiveFilesOneFault ++ ["Failed to delete physical file: " +:+ msg])))
    end.
Proof.
  apply (delete_removes_metadata_before_blob fiveFilesOneFault (DocumentRef "65f1a0c2e4b0a1b2c3d4e5f6")
           "/uploads/notes.json").
  by vm_compute.
Defined.

End MemTheorems.

Module StoreTheorems.
Import Js BulkRoute Mem MemFacts ContainFacts.

Ltac all_present :=
  repeat (apply Forall_cons_2; [vm_compute; by eexists|]); apply Forall_nil_2.

(** C2, as stated, fails: with the five records of [fiveFiles] and the id 99,
    which neither store holds, the handler reports six successes and no
    failure. *)
Lemma five_valid_one_missing_all_counted :
  let refs := fiveValid ++ [RelationalRef 99] in
  Forall (fun r => is_Some (storedPath fiveFiles r)) fiveValid /\
  pg fiveFiles !! 99%Z = None /\ mongo fiveFiles !! "99" = None /\
  (POST (bulkDeleteRequest refs) fiveFiles).1 =
    {| status := 200;
       body := BulkBody "Deleted 6 files successfully"
                 {| success := 6; failed := 0; errors := [] |} |} /\
  ~ exists msg errs,
      (POST (bulkDeleteRequest refs) fiveFiles).1 =
        {| status := 200;
           body := BulkBody msg {| success := 5; failed := 1; errors := errs |} |}.
Proof.
  assert ((POST (bulkDeleteRequest (fiveValid ++ [RelationalRef 99])) fiveFiles).1 =
            {| status := 200;
               body := BulkBody "Deleted 6 files successfully"
                         {| success := 6; failed := 0; errors := [] |} |}) as Hrun.
  { by vm_compute. }
  cbv zeta. split_and!; [|by vm_compute|by vm_compute|exact Hrun|].
  - unfold fiveValid. all_present.
  - rewrite Hrun. by intros (msg & errs & [=]).
Qed.

(** C2, amended. When no backend call fails, a bulk delete over five records
    that exist and one that its backend does not hold reports six successes
    and no failure, the absent record being counted with the others, and the
    five records are absent from their backends afterwards. *)
Theorem bulk_delete_five_and_missing (w : World)
    (before behind : list FileRef) (missing : FileRef) :
  faults w = [] ->
  length (before ++ behind) = 5 ->
  Forall (fun r => is_Some (storedPath w r)) (before ++ behind) ->
  storedPath w missing = None ->
  exists w',
    POST (bulkDeleteRequest (before ++ missing :: behind)) w =
      ({| status := 200;
          body := BulkBody "Deleted 6 files successfully"
                    {| success := 6; failed := 0; errors := [] |} |}, w') /\
    Forall (fun r => storedPath w' r = None) (before ++ behind).
Proof.
  intros Hfaults Hlen _ _.
  destruct (POST_fault_free (before ++ missing :: behind) w Hfaults) as (w' & Hrun & Habsent).
  { by destruct before. }
  assert (length (before ++ missing :: behind) = 6) as Hsix.
  { rewrite length_app in *. simpl. lia. }
  rewrite Hsix in Hrun. exists w'. split; [exact Hrun|].
  apply Forall_forall. intros r Hin. apply Habsent.
  rewrite elem_of_app in *. rewrite elem_of_cons. tauto.
Qed.

Lemma bulk_delete_five_and_missing_witness :
  exists w',
    POST (bulkDeleteRequest ([RelationalRef 1; DocumentRef "65f1a0c2e4b0a1b2c3d4e5f6"] ++
                             RelationalRef 99 ::
                             [RelationalRef 2; DocumentRef "65f1a1c2e4b0a1b2c3d4e5f7"; RelationalRef 3]))
         fiveFiles =
      ({| status := 200;
          body := BulkBody "Deleted 6 files successfully"
                    {| success := 6; failed := 0; errors := [] |} |}, w') /\
    Forall (fun r => storedPath w' r = None)
           ([RelationalRef 1; DocumentRef "65f1a0c2e4b0a1b2c3d4e5f6"] ++
            [RelationalRef 2; DocumentRef "65f1a1c2e4b0a1b2c3d4e5f7"; RelationalRef 3]).
Proof.
  apply (bulk_delete_five_and_missing fiveFiles
           [RelationalRef 1; DocumentRef "65f1a0c2e4b0a1b2c3d4e5f6"]
           [RelationalRef 2; DocumentRef "65f1a1c2e4b0a1b2c3d4e5f7"; RelationalRef 3]
           (RelationalRef 99)).
  - reflexivity.
  - reflexivity.
  - all_present.
  - by vm_compute.
Defined.

(** C8, as stated, fails: for the stored path [/../../../etc/passwd] the
    handler raises nothing, reports success and unlinks [/etc/passwd], which
    lies outside the blob root [/srv/app/public]. *)
Lemma stored_path_escapes_root :
  let run := POST (bulkDeleteRequest [DocumentRef "65f1a2c2e4b0a1b2c3d4e5f8"]) escaping in
  blobRoot (cwd escaping) = "/srv/app/public" /\
  run.1 = {| status := 200;
             body := BulkBody "Deleted 1 files successfully"
                       {| success := 1; failed := 0; errors := [] |} |} /\
  callsSince escaping run.2 =
    [Connect; FindById (Some (JString "65f1a2c2e4b0a1b2c3d4e5f8"));
     FindByIdAndDelete (Some (JString "65f1a2c2e4b0a1b2c3d4e5f8")); Unlink "/etc/passwd"] /\
  ("/etc/passwd" ∈ disk escaping) /\
  ("/etc/passwd" ∉ disk (run.2)) /\
  ~ insideRoot (cwd escaping) "/etc/passwd".
Proof.
  cbv zeta. split_and!.
  - by vm_compute.
  - by vm_compute.
  - by vm_compute.
  - apply (bool_decide_unpack _). by vm_compute.
  - apply (bool_decide_unpack _). by vm_compute.
  - unfold insideRoot. change (blobRoot (cwd escaping)) with "/srv/app/public".
    intros [Heq|(rest & Heq & _)]; discriminate.
Qed.

(** C8, amended. The handler checks no path.  It takes one leading
    separator off the stored path, joins the rest below [public] in the
    working directory and unlinks the normalized result; when no stored
    path has a [..] segment, every file that a bulk request unlinks is the
    blob root or lies below it. *)
Theorem bulk_delete_stays_below_root (w : World) (request : Error + json) :
  NodePath.startsWithSlash (cwd w) = true ->
  pathsClean w ->
  forall path, Unlink path ∈ callsSince w (POST request w).2 -> insideRoot (cwd w) path.
Proof.
  intros Habs Hclean path.
  destruct (POST_contained request w Habs Hclean) as (_ & _ & _ & calls & Htrace & Hcalls).
  unfold callsSince. rewrite Htrace, drop_app_length.
  intros Hin. rewrite Forall_forall in Hcalls. exact (Hcalls _ Hin).
Qed.

Lemma bulk_delete_stays_below_root_witness :
  Unlink "/srv/app/public/uploads/report.json"
    ∈ callsSince fiveFiles (POST (bulkDeleteRequest fiveValid) fiveFiles).2 /\
  insideRoot (cwd fiveFiles) "/srv/app/public/uploads/report.json".
Proof.
  assert (Unlink "/srv/app/public/uploads/report.json"
            ∈ callsSince fiveFiles (POST (bulkDeleteRequest fiveValid) fiveFiles).2) as Hin.
  { vm_compute. repeat constructor. }
  split; [exact Hin|].
  apply (bulk_delete_stays_below_root fiveFiles (bulkDeleteRequest fiveValid)).
  - reflexivity.
  - split; apply (bool_decide_unpack _); by vm_compute.
  - exact Hin.
Defined.

End StoreTheorems.

(** ** More on the merge strategies *)

Module MergeMore.
Import Js JsonMergeModal MergeSpec PropsFacts MergeFacts.

Ltac nodup_keys := apply (bool_decide_unpack _); vm_compute; exact I.
Ltac wf_literal := simpl; repeat split; nodup_keys.

(** The rule of DEEP merge, wherever the key [__proto__] of the second
    object, if it has one, is a key of the first as well: two arrays give
    the elements of the first followed by those of the second; two objects
    are merged key by key, a key of both holding the DEEP merge of the two
    values and a key of one side keeping its value; any other pair gives the
    second value.  The example of the specification evaluates to the
    expected document. *)
Theorem deepMerge_rule_on_own_keys :
  (forall obj1 obj2, wf obj1 -> wf obj2 ->
     match obj1, obj2 with
     | JArray a1, JArray a2 => deepMerge obj1 obj2 = JArray (a1 ++ a2)
     | JObject o1, JObject o2 =>
         ("__proto__" ∈ keys o2 -> "__proto__" ∈ keys o1) ->
         exists r, deepMerge obj1 obj2 = JObject r /\ NoDup (keys r) /\
           forall key, getOwn key r = atKey deepMerge (getOwn key o1) (getOwn key o2)
     | _, _ => deepMerge obj1 obj2 = obj2
     end)
  /\ deepMerge deepLeft deepRight = deepExpected.
Proof.
  split; [|by vm_compute].
  intros obj1 obj2 Hwf1 Hwf2. destruct obj1, obj2; try done.
  apply wf_object in Hwf1 as [Hnd1 _]. apply wf_object in Hwf2 as [Hnd2 _].
  intros Hown. eexists. split; [by apply deepMerge_objects|]. split.
  - by apply NoDup_keys_mergeProps.
  - intros key. by apply getOwn_mergeProps.
Qed.

Lemma deepMerge_rule_on_own_keys_witness :
  exists r,
    deepMerge (JObject [("__proto__", JObject [("x", num 1)]); ("arr", JArray [num 1; num 2])])
              (JObject [("arr", JArray [num 3]); ("__proto__", JObject [("y", num 2)])])
      = JObject r /\ NoDup (keys r) /\
    forall key, getOwn key r =
      atKey deepMerge
        (getOwn key [("__proto__", JObject [("x", num 1)]); ("arr", JArray [num 1; num 2])])
        (getOwn key [("arr", JArray [num 3]); ("__proto__", JObject [("y", num 2)])]).
Proof.
  apply (proj1 deepMerge_rule_on_own_keys
           (JObject [("__proto__", JObject [("x", num 1)]); ("arr", JArray [num 1; num 2])])
           (JObject [("arr", JArray [num 3]); ("__proto__", JObject [("y", num 2)])]));
    [wf_literal | wf_literal |].
  intros _. apply (bool_decide_unpack _). vm_compute. exact I.
Defined.

(** DEEP merge never recurses into [null]: when either of the two merged
    values is [null] the result is the second value, at the top and at
    every key that the second object has and whose value is [null] in
    either object, wherever the key [__proto__] of the second object, if it
    has one, is a key of the first as well. *)
Theorem deepMerge_keeps_null :
  (forall v, deepMerge JNull v = v) /\
  (forall v, deepMerge v JNull = JNull) /\
  (forall o1 o2 key v2, NoDup (keys o1) -> NoDup (keys o2) ->
     ("__proto__" ∈ keys o2 -> "__proto__" ∈ keys o1) ->
     getOwn key o2 = Some v2 ->
     v2 = JNull \/ getOwn key o1 = Some JNull ->
     exists r, deepMerge (JObject o1) (JObject o2) = JObject r /\ getOwn key r = Some v2).
Proof.
  split_and!.
  - by intros [].
  - by intros [].
  - intros o1 o2 key v2 Hnd1 Hnd2 Hown Hv2 Hnull.
    eexists. split; [by apply deepMerge_objects|].
    rewrite getOwn_mergeProps, Hv2 by done.
    destruct Hnull as [-> | ->]; simpl.
    + by destruct (getOwn key o1) as [[]|].
    + by destruct v2.
Qed.

Lemma deepMerge_keeps_null_witness :
  exists r,
    deepMerge (JObject [("k", JNull); ("m", JObject [("x", num 1)])])
              (JObject [("k", JObject [("y", num 2)]); ("m", JNull)]) = JObject r /\
    getOwn "m" r = Some JNull.
Proof.
  apply (proj2 (proj2 deepMerge_keeps_null)); [nodup_keys | nodup_keys | | done | by left].
  intros Hin. exfalso. revert Hin. apply (bool_decide_unpack _). vm_compute. exact I.
Defined.

(** The keys that a list of new properties adds to an object. *)
Lemma filter_fresh_ext (k : string) (known todo : list string) :
  k ∉ todo ->
  List.filter (fun key => bool_decide (key ∉ known ++ [k])) todo =
  List.filter (fun key => bool_decide (key ∉ known)) todo.
Proof.
  intros Hk. induction todo as [|x rest IH]; simpl; [done|].
  apply not_elem_of_cons in Hk as [Hne Hrest]. rewrite IH by done.
  assert (bool_decide (x ∉ known ++ [k]) = bool_decide (x ∉ known)) as ->; [|done].
  apply bool_decide_ext. rewrite not_elem_of_app, list_elem_of_singleton.
  split; [by intros [? _] | intros ?; split; [done | congruence]].
Qed.

Lemma keys_assign_known key v (props : props_t) :
  key ∈ keys props -> keys (assign key v props) = keys props.
Proof.
  intros Hin. rewrite keys_assign. unfold hasKey.
  apply elem_keys_getOwn in Hin as [x ->]. done.
Qed.

Lemma keys_assign_fresh key v (props : props_t) :
  key ∉ keys props -> keys (assign key v props) = keys props ++ [key].
Proof.
  intros Hin. rewrite keys_assign. unfold hasKey.
  apply getOwn_None in Hin. by rewrite Hin.
Qed.

Lemma keys_mergeProps rec (todo result : props_t) :
  NoDup (keys todo) ->
  keys (mergeProps rec todo result) =
    keys result ++ List.filter (fun key => bool_decide (key ∉ keys result)) (keys todo).
Proof.
  revert result. induction todo as [|[k v2] rest IH]; intros result Hnd; simpl.
  - by rewrite app_nil_r.
  - apply NoDup_cons in Hnd as [Hk Hnd]. simpl in Hk. rewrite IH by done.
    destruct (decide (k ∈ keys result)) as [Hin|Hout].
    + rewrite bool_decide_eq_false_2 by (by intros ?).
      by destruct (getOwn k result); rewrite keys_assign_known.
    + rewrite bool_decide_eq_true_2 by done.
      assert (keys (match getOwn k result with
                    | Some v1 => assign k (rec v1 v2) result
                    | None => assign k v2 result
                    end) = keys result ++ [k]) as ->.
      { by destruct (getOwn k result); rewrite keys_assign_fresh. }
      rewrite filter_fresh_ext by done. by rewrite <- app_assoc.
Qed.

Lemma keys_spread (result source : props_t) :
  NoDup (keys source) ->
  keys (spread result source) =
    keys result ++ List.filter (fun key => bool_decide (key ∉ keys result)) (keys source).
Proof.
  unfold spread. revert result.
  induction source as [|[k v] rest IH]; intros result Hnd; simpl.
  - by rewrite app_nil_r.
  - apply NoDup_cons in Hnd as [Hk Hnd]. simpl in Hk. rewrite IH by done.
    destruct (decide (k ∈ keys result)) as [Hin|Hout].
    + rewrite bool_decide_eq_false_2 by (by intros ?). by rewrite keys_assign_known.
    + rewrite bool_decide_eq_true_2 by done. rewrite keys_assign_fresh by done.
      rewrite filter_fresh_ext by done. by rewrite <- app_assoc.
Qed.

(** DEEP and SHALLOW merge of two objects none of whose keys is a number
    list the keys in the same order, wherever the key [__proto__] of the
    second object, if it has one, is a key of the first as well: those of
    the first object in their order, then the keys that only the second
    object has, in the order of the second. *)
Theorem merged_key_order (o1 o2 : props_t) :
  NoDup (keys o1) -> NoDup (keys o2) ->
  Forall (fun key => Views.digitsOnly key = false) (keys o1 ++ keys o2) ->
  ("__proto__" ∈ keys o2 -> "__proto__" ∈ keys o1) ->
  let order :=
    keys o1 ++ List.filter (fun key => bool_decide (key ∉ keys o1)) (keys o2) in
  (exists r, merged deep (JObject o1) (JObject o2) = JObject r /\ keys r = order) /\
  (exists r, merged shallow (JObject o1) (JObject o2) = JObject r /\ keys r = order).
Proof.
  intros Hnd1 Hnd2 _ Hown order. split; eexists.
  - split; [by apply deepMerge_objects|]. by apply keys_mergeProps.
  - split; [reflexivity|]. simpl. rewrite (spread_nil o1) by done. by apply keys_spread.
Qed.

Lemma merged_key_order_witness :
  let order :=
    keys [("b", num 1); ("__proto__", num 2)] ++
    List.filter (fun key => bool_decide (key ∉ keys [("b", num 1); ("__proto__", num 2)]))
                (keys [("c", num 3); ("__proto__", num 4)]) in
  (exists r, merged deep (JObject [("b", num 1); ("__proto__", num 2)])
                         (JObject [("c", num 3); ("__proto__", num 4)]) = JObject r /\
             keys r = order) /\
  (exists r, merged shallow (JObject [("b", num 1); ("__proto__", num 2)])
                            (JObject [("c", num 3); ("__proto__", num 4)]) = JObject r /\
             keys r = order).
Proof.
  apply (merged_key_order [("b", num 1); ("__proto__", num 2)]
                          [("c", num 3); ("__proto__", num 4)]);
    [nodup_keys | nodup_keys
    |repeat (apply Forall_cons_2; [reflexivity|]); apply Forall_nil_2
    |intros _; apply (bool_decide_unpack _); vm_compute; exact I].
Defined.

Lemma mergeProps_spread rec (todo result : props_t) :
  NoDup (keys todo) ->
  (forall key v1 v2, getOwn key result = Some v1 -> getOwn key todo = Some v2 ->
                     rec v1 v2 = v2) ->
  mergeProps rec todo result = spread result todo.
Proof.
  unfold spread. revert result.
  induction todo as [|[k v2] rest IH]; intros result Hnd Hrec; simpl; [done|].
  apply NoDup_cons in Hnd as [Hk Hnd]. simpl in Hk.
  assert (match getOwn k result with
          | Some v1 => assign k (rec v1 v2) result
          | None => assign k v2 result
          end = assign k v2 result) as ->.
  { destruct (getOwn k result) as [v1|] eqn:Hres; [|done].
    rewrite (Hrec k v1 v2); [done|done|]. simpl. by rewrite decide_True. }
  apply IH; [done|]. intros key v1 v Hres Hrest.
  assert (k <> key) as Hne.
  { intros ->. apply getOwn_Some_elem in Hrest. done. }
  rewrite getOwn_assign_ne in Hres by done.
  apply (Hrec key v1 v Hres). simpl. by rewrite decide_False.
Qed.

(** DEEP merge of two objects is their SHALLOW merge whenever, at every key
    that both have, merging the two values gives the second one (they share
    no key, or the shared keys hold scalars or values of different kinds),
    and the key [__proto__] of the second object, if it has one, is a key
    of the first as well. *)
Theorem deep_is_shallow_without_nesting (o1 o2 : props_t) :
  NoDup (keys o1) -> NoDup (keys o2) ->
  (forall key v1 v2, getOwn key o1 = Some v1 -> getOwn key o2 = Some v2 ->
                     deepMerge v1 v2 = v2) ->
  ("__proto__" ∈ keys o2 -> "__proto__" ∈ keys o1) ->
  merged deep (JObject o1) (JObject o2) = merged shallow (JObject o1) (JObject o2).
Proof.
  intros Hnd1 Hnd2 Hflat Hown. simpl. rewrite deepMerge_objects by done.
  rewrite !(spread_nil o1) by done. f_equal. by apply mergeProps_spread.
Qed.

Lemma deep_is_shallow_without_nesting_witness :
  merged deep (JObject [("a", num 1); ("b", JArray [num 2])])
              (JObject [("b", JObject [("x", num 3)]); ("c", num 4)]) =
  merged shallow (JObject [("a", num 1); ("b", JArray [num 2])])
                 (JObject [("b", JObject [("x", num 3)]); ("c", num 4)]).
Proof.
  apply (deep_is_shallow_without_nesting
           [("a", num 1); ("b", JArray [num 2])]
           [("b", JObject [("x", num 3)]); ("c", num 4)]).
  - nodup_keys.
  - nodup_keys.
  - intros key v1 v2 H1 H2. simpl in H1, H2.
    repeat (case_decide; simplify_eq; try done).
  - intros Hin. exfalso. revert Hin. apply (bool_decide_unpack _). vm_compute. exact I.
Defined.

(** Merging into an empty array gives the second document, whatever it
    is, and so does merging into an empty object unless the second document
    is an object with the key [__proto__]; merging an empty object into an
    object, or an empty array into an array, gives the first. *)
Theorem deepMerge_empty (x : json) :
  wf x ->
  ("__proto__" ∉ keys (ownProps x) -> deepMerge (JObject []) x = x) /\
  deepMerge (JArray []) x = x /\
  match x with
  | JObject _ => deepMerge x (JObject []) = x
  | JArray _ => deepMerge x (JArray []) = x
  | _ => True
  end.
Proof.
  intros Hwf. destruct x as [| | | |a|o]; try done.
  - split_and!; [done|done|]. by rewrite deepMerge_arrays, app_nil_r.
  - apply wf_object in Hwf as [Hnd _]. split_and!; [|done|].
    + simpl. intros Hno. rewrite deepMerge_objects; [|apply NoDup_nil_2|done].
      f_equal. rewrite mergeProps_spread; [by apply spread_nil|done|done].
    + rewrite deepMerge_objects; [done|done|]. by intros Hin%elem_of_nil.
Qed.

Lemma deepMerge_empty_witness :
  deepMerge (JObject []) deepLeft = deepLeft /\
  deepMerge (JArray []) deepLeft = deepLeft /\
  deepMerge deepLeft (JObject []) = deepLeft.
Proof.
  destruct (deepMerge_empty deepLeft) as (Hobject & Harray & Hfirst); [wf_literal|].
  split_and!; [apply Hobject | done | done].
  apply (bool_decide_unpack _). vm_compute. exact I.
Defined.

Lemma getOwn_indexed_from (n i : nat) (items : list json) :
  getOwn (pretty (n + i)) (imap (fun j x => (pretty (n + j), x)) items) = items !! i.
Proof.
  revert n i. induction items as [|x rest IH]; intros n i; [done|].
  rewrite imap_cons. simpl. destruct i as [|i].
  - by rewrite decide_True.
  - rewrite decide_False; cycle 1.
    { intros Heq%(inj pretty). lia. }
    replace (n + S i) with (S n + i) by lia.
    change ((x :: rest) !! S i) with (rest !! i).
    rewrite <- (IH (S n) i). f_equal.
    apply imap_ext. intros j y _. simpl. do 2 f_equal. lia.
Qed.

Lemma getOwn_indexed (i : nat) (items : list json) :
  getOwn (pretty i) (indexed items) = items !! i.
Proof. apply (getOwn_indexed_from 0 i items). Qed.

Lemma keys_indexed (items : list json) :
  keys (indexed items) = pretty <$> seq 0 (length items).
Proof.
  unfold keys, indexed. rewrite fmap_imap.
  rewrite <- (imap_seq_0 items (fun j => pretty j)).
  apply imap_ext. done.
Qed.

Lemma NoDup_keys_indexed (items : list json) : NoDup (keys (indexed items)).
Proof. rewrite keys_indexed. apply NoDup_fmap_2; [apply _|apply NoDup_seq]. Qed.

(** SHALLOW merge does not refuse arrays: two arrays give an object keyed by
    indices, in which an element of the second array replaces the element
    of the first at the same index and the longer array supplies the
    rest. *)
Theorem shallow_of_arrays (a1 a2 : list json) :
  exists r,
    merged shallow (JArray a1) (JArray a2) = JObject r /\
    (forall i : nat,
       getOwn (pretty i) r = match a2 !! i with Some v => Some v | None => a1 !! i end) /\
    (forall key, key ∈ keys r ->
       exists i : nat, key = pretty i /\ i < length a1 `max` length a2).
Proof.
  eexists. split; [reflexivity|]. simpl.
  rewrite (spread_nil (indexed a1)) by apply NoDup_keys_indexed.
  assert (forall key,
            getOwn key (spread (indexed a1) (indexed a2)) =
            match getOwn key (indexed a2) with
            | Some v => Some v
            | None => getOwn key (indexed a1)
            end) as Hget.
  { intros key. apply getOwn_spread, NoDup_keys_indexed. }
  split.
  - intros i. by rewrite Hget, !getOwn_indexed.
  - intros key [v Hv]%elem_keys_getOwn. rewrite Hget in Hv.
    assert (key ∈ keys (indexed a1) \/ key ∈ keys (indexed a2)) as Hin.
    { destruct (getOwn key (indexed a2)) eqn:H2.
      - right. by eapply getOwn_Some_elem.
      - left. by eapply getOwn_Some_elem. }
    rewrite !keys_indexed in Hin.
    destruct Hin as [Hin|Hin]; apply list_elem_of_fmap in Hin as (i & -> & Hi);
      apply elem_of_seq in Hi; exists i; split; [done|lia|done|lia].
Qed.

End MergeMore.

(** ** More on selection: the page, the pickers and the preview *)

Module SelectionMore.
Import Js JsonMergeModal Page Views.

Lemma sameRecord_refl (file : FileMetadata) : sameRecord file file = true.
Proof. unfold sameRecord. by rewrite !bool_decide_eq_true_2. Qed.

Lemma sameRecord_pair (file f : FileMetadata) :
  sameRecord file f = true <-> pairOf f = pairOf file.
Proof.
  unfold sameRecord, pairOf. rewrite andb_true_iff, !bool_decide_eq_true.
  split; [by intros [-> ->] | by intros [= -> ->]].
Qed.

Lemma existsb_sameRecord (file : FileMetadata) (prev : list FileMetadata) :
  existsb (sameRecord file) prev = true <-> pairOf file ∈ pairOf <$> prev.
Proof.
  rewrite existsb_exists, list_elem_of_fmap. split.
  - intros (f & Hin & Hsame). exists f. split; [|by apply list_elem_of_In].
    symmetry. by apply sameRecord_pair.
  - intros (f & Heq & Hin). exists f. split; [by apply list_elem_of_In|].
    by apply sameRecord_pair.
Qed.

Lemma filter_none_selected (file : FileMetadata) (prev : list FileMetadata) :
  existsb (sameRecord file) prev = false ->
  List.filter (fun f => negb (sameRecord file f)) prev = prev.
Proof.
  induction prev as [|f rest IH]; simpl; [done|].
  intros [Hf Hrest]%orb_false_iff. rewrite Hf. simpl. by rewrite IH.
Qed.

(** Selecting a file that is not selected and toggling it again gives the
    selection back as it was. *)
Theorem handleFileSelect_twice (file : FileMetadata) (prev : list FileMetadata) :
  existsb (sameRecord file) prev = false ->
  handleFileSelect file (handleFileSelect file prev) = prev.
Proof.
  intros Hnot. unfold handleFileSelect at 2. rewrite Hnot.
  unfold handleFileSelect. rewrite existsb_app. simpl.
  rewrite sameRecord_refl, orb_true_r.
  rewrite List.filter_app. simpl. rewrite sameRecord_refl. simpl.
  by rewrite filter_none_selected, app_nil_r.
Qed.

Lemma handleFileSelect_twice_witness :
  handleFileSelect documentNotes (handleFileSelect documentNotes [relationalReport])
    = [relationalReport].
Proof. apply (handleFileSelect_twice documentNotes [relationalReport]). reflexivity. Defined.

Lemma NoDup_fmap_filter {A B} (h : A -> B) (p : A -> bool) (l : list A) :
  NoDup (h <$> l) -> NoDup (h <$> List.filter p l).
Proof.
  induction l as [|x rest IH]; simpl; [done|].
  intros [Hx Hrest]%NoDup_cons. destruct (p x); simpl; [|by apply IH].
  apply NoDup_cons. split; [|by apply IH].
  intros (y & Heq & Hin)%list_elem_of_fmap. apply Hx.
  apply list_elem_of_fmap. exists y. split; [done|].
  apply list_elem_of_In in Hin. apply filter_In in Hin as [Hin _].
  by apply list_elem_of_In.
Qed.

(** A selection that holds no two records of the same [(id, storageType)]
    pair stays so under every toggle. *)
Theorem handleFileSelect_distinct_pairs (file : FileMetadata) (prev : list FileMetadata) :
  NoDup (pairOf <$> prev) -> NoDup (pairOf <$> handleFileSelect file prev).
Proof.
  intros Hnd. unfold handleFileSelect.
  destruct (existsb (sameRecord file) prev) eqn:Hsel.
  - by apply NoDup_fmap_filter.
  - rewrite fmap_app. apply NoDup_app. split_and!; [done| |apply NoDup_singleton].
    intros pair Hin ->%list_elem_of_singleton.
    apply existsb_sameRecord in Hin. congruence.
Qed.

Lemma handleFileSelect_distinct_pairs_witness :
  NoDup (pairOf <$> handleFileSelect documentNotes [relationalReport]).
Proof.
  apply (handleFileSelect_distinct_pairs documentNotes [relationalReport]).
  apply (bool_decide_unpack _). vm_compute. exact I.
Defined.

Lemma handleFileSelect_other_witness :
  relationalReport ∈ handleFileSelect documentNotes [relationalReport]
  <-> relationalReport ∈ [relationalReport].
Proof.
  apply (SelectionTheorems.handleFileSelect_other documentNotes relationalReport
           [relationalReport]).
  reflexivity.
Defined.

Lemma fmap_inj_on {A B} (h : A -> B) (l : list A) (x y : A) :
  NoDup (h <$> l) -> x ∈ l -> y ∈ l -> h x = h y -> x = y.
Proof.
  induction l as [|z rest IH]; simpl; [by intros _ ?%elem_of_nil|].
  intros [Hz Hrest]%NoDup_cons [->|Hx]%elem_of_cons [->|Hy]%elem_of_cons Heq; try done.
  - exfalso. apply Hz. rewrite Heq. by apply list_elem_of_fmap_2.
  - exfalso. apply Hz. rewrite <- Heq. by apply list_elem_of_fmap_2.
  - by apply IH.
Qed.

Lemma find_first {A} (p : A -> bool) (l : list A) (x : A) :
  x ∈ l -> p x = true -> exists y, List.find p l = Some y.
Proof.
  induction l as [|z rest IH]; simpl; [by intros ?%elem_of_nil|].
  intros [->|Hin]%elem_of_cons Hp.
  - rewrite Hp. eauto.
  - destruct (p z); eauto.
Qed.

Lemma findByValue_own_option (files : list FileMetadata) (f : FileMetadata) :
  NoDup ((fun f => idString (id f)) <$> jsonFiles files) ->
  f ∈ files -> extension f = "json" ->
  findByValue files (optionValue f) = Some f.
Proof.
  intros Hnd Hin Hext. unfold findByValue, optionValue.
  assert (f ∈ jsonFiles files) as Hjson.
  { unfold jsonFiles. apply list_elem_of_In, filter_In.
    split; [by apply list_elem_of_In | by apply bool_decide_eq_true].  }
  destruct (find_first (fun g => bool_decide (idString (id g) = idString (id f)))
              (jsonFiles files) f Hjson) as [g Hg].
  { by apply bool_decide_eq_true. }
  rewrite Hg. f_equal.
  apply find_some in Hg as [Hgin Hgid]. apply bool_decide_eq_true in Hgid.
  apply list_elem_of_In in Hgin.
  by apply (fmap_inj_on (fun f => idString (id f)) (jsonFiles files)).
Qed.

(** When the JSON files offered to the modal have pairwise distinct id
    strings, a picker asked for the option of a file resolves to that very
    file, and only JSON files of the list are ever resolved. *)
Theorem picker_resolves_distinct_ids (files : list FileMetadata) :
  NoDup ((fun f => idString (id f)) <$> jsonFiles files) ->
  forall f, findByValue files (optionValue f) = Some f
            <-> f ∈ files /\ extension f = "json".
Proof.
  intros Hnd f. split.
  - unfold findByValue, optionValue. intros [Hin _]%find_some. unfold jsonFiles in Hin.
    apply filter_In in Hin as [Hin Hext].
    split; [by apply list_elem_of_In | by apply bool_decide_eq_true in Hext].
  - intros [Hin Hext]. by apply findByValue_own_option.
Qed.

Lemma picker_resolves_distinct_ids_witness :
  findByValue [relationalReport; documentTodo] (optionValue documentTodo) = Some documentTodo.
Proof.
  apply (picker_resolves_distinct_ids [relationalReport; documentTodo]).
  - apply (bool_decide_unpack _). vm_compute. exact I.
  - split; [right; left | reflexivity].
Defined.

(** With pairwise distinct id strings among the JSON files, the request that
    the modal posts after both pickers were used names the two files that
    were picked, each by its id and its own storage type, and the strategy
    in force. *)
Theorem merge_request_names_picked_files
    (files : list FileMetadata) (f1 f2 : FileMetadata) (m : Modal) :
  NoDup ((fun f => idString (id f)) <$> jsonFiles files) ->
  f1 ∈ files -> extension f1 = "json" ->
  f2 ∈ files -> extension f2 = "json" ->
  handleMergeBody
    (onChangeSecond files (optionValue f2) (onChangeFirst files (optionValue f1) m)) =
  Some (JObject [("file1Id", idJson (id f1));
                 ("file1StorageType", JString (storageType f1));
                 ("file2Id", idJson (id f2));
                 ("file2StorageType", JString (storageType f2));
                 ("strategy", JString (strategyName (mergeStrategy m)))]).
Proof.
  intros Hnd Hin1 Hext1 Hin2 Hext2. unfold onChangeSecond, onChangeFirst, handleMergeBody.
  simpl. by rewrite !findByValue_own_option.
Qed.

Lemma merge_request_names_picked_files_witness :
  handleMergeBody
    (onChangeSecond [relationalReport; documentTodo] (optionValue relationalReport)
       (onChangeFirst [relationalReport; documentTodo] (optionValue documentTodo)
          openedModal)) =
  Some (JObject [("file1Id", JString "65f1a0c2e4b0a1b2c3d4e5f6");
                 ("file1StorageType", JString "mongodb");
                 ("file2Id", JNumber 7);
                 ("file2StorageType", JString "postgres");
                 ("strategy", JString "shallow")]).
Proof.
  apply (merge_request_names_picked_files [relationalReport; documentTodo]
           documentTodo relationalReport openedModal).
  - apply (bool_decide_unpack _). vm_compute. exact I.
  - right. left.
  - reflexivity.
  - left.
  - reflexivity.
Defined.

(** Choosing the placeholder of the first picker, whose value is the empty
    string, empties the first slot and with it the preview, unless a JSON
    file has the empty string as its id. *)
Theorem placeholder_clears_preview
    (fetchJson : string -> option json) (files : list FileMetadata) (m : Modal) :
  Forall (fun f => idString (id f) <> "") (jsonFiles files) ->
  let m' := previewEffect fetchJson (onChangeFirst files "" m) in
  (selectedFiles m').1 = None /\ preview m' = None.
Proof.
  intros Hids. unfold onChangeFirst, findByValue.
  assert (List.find (fun f => bool_decide (idString (id f) = "")) (jsonFiles files) = None)
    as Hnone.
  { induction Hids as [|f rest Hf _ IH]; simpl; [done|].
    by rewrite bool_decide_eq_false_2. }
  rewrite Hnone. unfold previewEffect. simpl. done.
Qed.

Lemma placeholder_clears_preview_witness :
  (selectedFiles previewingModal).1 = Some relationalReport /\
  preview previewingModal = Some (JObject [("a", JNumber 1)]) /\
  let m' := previewEffect (fun _ => Some JNull)
              (onChangeFirst [relationalReport; documentTodo] "" previewingModal) in
  (selectedFiles m').1 = None /\ preview m' = None.
Proof.
  split; [reflexivity|]. split; [reflexivity|].
  apply (placeholder_clears_preview (fun _ => Some JNull)
           [relationalReport; documentTodo] previewingModal).
  repeat (apply Forall_cons_2; [discriminate|]). apply Forall_nil_2.
Defined.

End SelectionMore.

(** ** More on the bulk handler over any backend *)

Module RouteMore.
Import Js BulkRoute RouteFacts.

Section AnyBackend.
Context {W : Type} `{Backend W}.

Lemma forEach_app (pre rest : list json) results (w : W) :
  Forall reportable pre ->
  exists results', forEach pre results w = (inr results', after pre w) /\
                   forEach (pre ++ rest) results w = forEach rest results' (after pre w).
Proof.
  intros Hall. revert results w.
  induction Hall as [|f pre Hf _ IH]; intros results w; simpl.
  - by eexists.
  - unfold bind. rewrite step_total by done. simpl.
    destruct (IH (tally results f (deleteOne f w).1) (deleteOne f w).2)
      as (results' & Hpre & Happ).
    exists results'. by rewrite Hpre, Happ.
Qed.

Lemma step_null results (w : W) :
  step results JNull w =
    (inl (typeError "Cannot read properties of null (reading 'id')"), w).
Proof. done. Qed.

Lemma handle_delete (props : props_t) (files : list json) (w : W) :
  getOwn "action" props = Some (JString "delete") ->
  getOwn "files" props = Some (JArray files) ->
  files <> [] ->
  handle (inr (JObject props)) w =
    bind (forEach files {| success := 0; failed := 0; errors := [] |})
      (fun results =>
         ret {| status := 200;
                body := BulkBody ("Deleted " +:+ pretty (success results) +:+
                                  " files successfully") results |}) w.
Proof.
  intros Haction Hfiles Hne.
  assert (bool_decide (length files = 0) = false) as Hlen.
  { apply bool_decide_eq_false_2. by destruct files. }
  unfold handle, destructureBody. unfold bind at 1 2. unfold ret at 1 2.
  cbn -[forEach pretty bind]. rewrite Haction, Hfiles. cbn -[forEach pretty bind].
  rewrite Hlen.
  rewrite (bool_decide_eq_false_2 ("delete" = "")) by done.
  rewrite (bool_decide_eq_true_2 ("delete" = "delete")) by done.
  done.
Qed.

End AnyBackend.

End RouteMore.

Module RouteExtras.
Import Js BulkRoute RouteFacts RouteMore Mem.

(** A [null] among the files ends the request with status 500, when the
    failure of every entry before it can be reported (none is [null] and
    every id can be printed): the entries before it have been processed and
    stay so, the entries after it are not looked at, and the tally is lost;
    the console gets the one line of the outer handler. *)
Theorem null_entry_aborts_batch {W : Type} `{Backend W}
    (props : props_t) (before behind : list json) (w : W) :
  getOwn "action" props = Some (JString "delete") ->
  getOwn "files" props = Some (JArray (before ++ JNull :: behind)) ->
  Forall reportable before ->
  POST (inr (JObject props)) w =
    ({| status := 500; body := ErrorBody "Failed to perform bulk operation" |},
     console_error "Bulk operation error: Cannot read properties of null (reading 'id')"
       (after before w)).
Proof.
  intros Haction Hfiles Hall. unfold POST.
  rewrite (handle_delete props (before ++ JNull :: behind)); [|done|done|by destruct before].
  unfold bind at 1.
  destruct (forEach_app before (JNull :: behind)
              {| success := 0; failed := 0; errors := [] |} w Hall)
    as (results' & _ & ->).
  reflexivity.
Qed.

Lemma null_entry_aborts_batch_witness :
  POST (inr (JObject [("action", JString "delete");
                      ("files", JArray ([fileInfoOf (RelationalRef 1)] ++
                                        JNull :: [fileInfoOf (RelationalRef 2)]))]))
       fiveFiles =
    ({| status := 500; body := ErrorBody "Failed to perform bulk operation" |},
     console_error "Bulk operation error: Cannot read properties of null (reading 'id')"
       (after [fileInfoOf (RelationalRef 1)] fiveFiles)).
Proof.
  apply (null_entry_aborts_batch
           [("action", JString "delete");
            ("files", JArray ([fileInfoOf (RelationalRef 1)] ++
                              JNull :: [fileInfoOf (RelationalRef 2)]))]
           [fileInfoOf (RelationalRef 1)] [fileInfoOf (RelationalRef 2)] fiveFiles).
  - reflexivity.
  - reflexivity.
  - apply Forall_cons_2; [split; [discriminate|reflexivity] | apply Forall_nil_2].
Defined.

(** An entry whose id cannot be printed ends the request with status 500 as
    soon as its deletion throws: the handler of the inner [try] throws in
    its turn when it builds the entry of [errors], the entries before have
    been processed and stay so, the entries behind are not looked at, and
    the tally is lost. *)
Theorem unprintable_id_aborts_batch {W : Type} `{Backend W}
    (props : props_t) (before behind : list json) (fileInfo : json) (w : W) :
  getOwn "action" props = Some (JString "delete") ->
  getOwn "files" props = Some (JArray (before ++ fileInfo :: behind)) ->
  Forall reportable before ->
  fileInfo <> JNull ->
  printThrowsVal (getProp fileInfo "id") = true ->
  let attempt := deleteOne fileInfo (after before w) in
  (exists error, attempt.1 = inl error) ->
  POST (inr (JObject props)) w =
    ({| status := 500; body := ErrorBody "Failed to perform bulk operation" |},
     console_error "Bulk operation error: Cannot convert object to primitive value"
       attempt.2).
Proof.
  intros Haction Hfiles Hall Hnn Hprint attempt [error Herror]. unfold POST.
  rewrite (handle_delete props (before ++ fileInfo :: behind));
    [|done|done|by destruct before].
  unfold bind at 1.
  destruct (forEach_app before (fileInfo :: behind)
              {| success := 0; failed := 0; errors := [] |} w Hall)
    as (results' & _ & ->).
  simpl. unfold bind at 1. unfold step, try_catch. unfold bind at 1.
  subst attempt. destruct (deleteOne fileInfo (after before w)) as [r w1].
  simpl in Herror. subst r. simpl.
  unfold readId, printed, bind.
  destruct fileInfo; try done; simpl in *; by rewrite ?Hprint.
Qed.

Lemma unprintable_id_aborts_batch_witness :
  let fileInfo := JObject [("id", JObject [("toString", JNumber 1)])] in
  POST (inr (JObject [("action", JString "delete");
                      ("files", JArray ([fileInfoOf (RelationalRef 1)] ++
                                        fileInfo :: [fileInfoOf (RelationalRef 2)]))]))
       fiveFiles =
    ({| status := 500; body := ErrorBody "Failed to perform bulk operation" |},
     console_error "Bulk operation error: Cannot convert object to primitive value"
       (deleteOne fileInfo (after [fileInfoOf (RelationalRef 1)] fiveFiles)).2).
Proof.
  apply (unprintable_id_aborts_batch
           [("action", JString "delete");
            ("files", JArray ([fileInfoOf (RelationalRef 1)] ++
                              JObject [("id", JObject [("toString", JNumber 1)])]
                              :: [fileInfoOf (RelationalRef 2)]))]
           [fileInfoOf (RelationalRef 1)] [fileInfoOf (RelationalRef 2)]
           (JObject [("id", JObject [("toString", JNumber 1)])]) fiveFiles).
  - reflexivity.
  - reflexivity.
  - apply Forall_cons_2; [split; [discriminate|reflexivity] | apply Forall_nil_2].
  - discriminate.
  - reflexivity.
  - eexists. vm_compute. reflexivity.
Defined.

(** Every request whose body is not [null] and that does not ask to delete a
    non-empty array of files is answered with status 400, and the world is
    left as it was: this covers a missing, empty or unknown action and files
    that are missing, empty or not an array. *)
Theorem invalid_request_is_rejected {W : Type} `{Backend W} (body : json) (w : W) :
  body <> JNull ->
  isString (getProp body "action") "delete" = false
  \/ arrayItems (getProp body "files") = [] ->
  exists msg,
    POST (inr body) w = ({| status := 400; body := ErrorBody msg |}, w).
Proof.
  intros Hbody Hbad. unfold POST, handle, destructureBody. unfold bind, ret.
  destruct body; try done; simpl in *.
  all: try (eexists; reflexivity).
  destruct (negb (truthy (getOwn "action" props)) || negb (truthy (getOwn "files" props))
            || negb (isArray (getOwn "files" props))
            || bool_decide (length (arrayItems (getOwn "files" props)) = 0)) eqn:Hvalid;
    [by eexists|].
  destruct (isString (getOwn "action" props) "delete") eqn:Hdel; [|by eexists].
  destruct Hbad as [?|Hempty]; [done|].
  rewrite Hempty in Hvalid. simpl in Hvalid. by rewrite !orb_true_r in Hvalid.
Qed.

Lemma invalid_request_is_rejected_witness :
  exists msg,
    POST (inr (JObject [("action", JString "archive");
                        ("files", JArray [fileInfoOf (RelationalRef 1)])])) fiveFiles
      = ({| status := 400; body := ErrorBody msg |}, fiveFiles).
Proof.
  apply (invalid_request_is_rejected
           (JObject [("action", JString "archive");
                     ("files", JArray [fileInfoOf (RelationalRef 1)])]) fiveFiles).
  - discriminate.
  - left. reflexivity.
Defined.

(** What the page sends for a selection that is not empty is always a valid
    delete request: whatever the backends do, the handler answers it with
    status 200 and accounts for every selected file, as succeeded or as
    failed with one entry in [errors]. *)
Theorem page_request_is_accepted {W : Type} `{Backend W}
    (selected : list JsonMergeModal.FileMetadata) (w : W) :
  selected <> [] ->
  exists body msg results w',
    Page.handleBulkDeleteBody selected = Some body /\
    POST (inr body) w = ({| status := 200; body := BulkBody msg results |}, w') /\
    success results + failed results = length selected /\
    length (errors results) = failed results.
Proof.
  intros Hne. unfold Page.handleBulkDeleteBody.
  destruct selected as [|f rest] eqn:Hsel; [done|]. rewrite <- Hsel.
  set (entry := fun f : JsonMergeModal.FileMetadata =>
         JObject [("id", JsonMergeModal.idJson (JsonMergeModal.id f));
                  ("storageType", JString (JsonMergeModal.storageType f))]).
  do 4 eexists. split; [reflexivity|]. split.
  - apply (POST_delete _ (map entry selected)); [done|done| |].
    + rewrite Hsel. done.
    + clear. induction selected as [|f0 rest0 IH]; simpl; constructor; [|done].
      split; [done|]. simpl. by destruct (JsonMergeModal.id f0).
  - simpl. rewrite length_map. split.
    + rewrite outcomes_split. by rewrite length_map.
    + done.
Qed.

Lemma page_request_is_accepted_witness :
  exists body msg results w',
    Page.handleBulkDeleteBody [Page.relationalReport; Page.documentNotes] = Some body /\
    POST (inr body) fiveFiles = ({| status := 200; body := BulkBody msg results |}, w') /\
    success results + failed results = length [Page.relationalReport; Page.documentNotes] /\
    length (errors results) = failed results.
Proof.
  apply (page_request_is_accepted [Page.relationalReport; Page.documentNotes] fiveFiles).
  discriminate.
Defined.

End RouteExtras.

(** ** Where a stored path resolves *)

Module ResolveFacts.
Import NodePath PathFacts.

Lemma plain_not_slash (seg : string) :
  split seg = [seg] -> seg <> "" -> startsWithSlash seg = false.
Proof.
  destruct seg as [|c rest]; [done|]. simpl. intros Hsplit _.
  case_decide as Hc; [done|]. by apply bool_decide_eq_false_2.
Qed.

Lemma plain_tail (c : Ascii.ascii) (rest : string) :
  split (String c rest) = [String c rest] -> split rest = [rest].
Proof.
  simpl. case_decide; [done|].
  pose proof (split_nonempty rest). destruct (split rest) as [|seg segs]; [done|].
  by intros [= -> ->].
Qed.

Lemma plain_no_trailing_slash (seg : string) :
  split seg = [seg] -> endsWithSlash seg = false.
Proof.
  induction seg as [|c rest IH]; [done|]. intros Hsplit.
  pose proof (plain_tail c rest Hsplit) as Hrest.
  simpl. destruct rest as [|c' rest']; [|by apply IH].
  simpl in Hsplit. case_decide as Hc; [done|]. by apply bool_decide_eq_false_2.
Qed.

Lemma join_cons_two (p q : string) (rest : list string) :
  Js.join "/" (p :: q :: rest) = p +:+ "/" +:+ Js.join "/" (q :: rest).
Proof. done. Qed.

Lemma startsWithSlash_join (seg : string) (rest : list string) :
  seg <> "" -> startsWithSlash (Js.join "/" (seg :: rest)) = startsWithSlash seg.
Proof.
  intros Hne. destruct rest as [|q rest]; [done|].
  rewrite join_cons_two. by destruct seg.
Qed.

Lemma endsWithSlash_join (segs : list string) :
  segs <> [] -> Forall (fun seg => seg <> "" /\ split seg = [seg]) segs ->
  endsWithSlash (Js.join "/" segs) = false.
Proof.
  intros Hne Hall. induction Hall as [|p [|q rest] [Hp Hsplit] Hrest IH]; [done| |].
  - by apply plain_no_trailing_slash.
  - rewrite join_cons_two.
    assert (Js.join "/" (q :: rest) <> "") as Hjoin.
    { apply join_not_empty. exists q. split; [left|].
      by apply Forall_cons in Hrest as [[? _] _]. }
    rewrite endsWithSlash_append; cycle 1.
    { destruct (Js.join "/" (q :: rest)); [done|]. by rewrite append_cons. }
    rewrite endsWithSlash_append by done. by apply IH.
Qed.

Lemma kept_plain (segs : list string) :
  Forall (fun seg => seg <> "" /\ seg <> ".") segs -> kept segs = segs.
Proof.
  intros Hall. unfold kept. induction Hall as [|seg rest [H1 H2] _ IH]; simpl; [done|].
  rewrite !bool_decide_eq_false_2 by done. simpl. by rewrite IH.
Qed.

End ResolveFacts.

Module ResolveTheorems.
Import Js BulkRoute Mem NodePath PathFacts ResolveFacts Footprint.

(** A stored path made of plain segments, with or without a leading
    separator, resolves to the file of that relative path below the blob
    root: the leading separator does not make it absolute. *)
Theorem stored_path_resolves_below_root (cwd : string) (segs : list string) :
  startsWithSlash cwd = true ->
  segs <> [] -> Forall plainSegment segs ->
  absolutePathOf cwd ("/" +:+ Js.join "/" segs) = blobRoot cwd +:+ "/" +:+ Js.join "/" segs /\
  absolutePathOf cwd (Js.join "/" segs) = blobRoot cwd +:+ "/" +:+ Js.join "/" segs.
Proof.
  intros Habs Hne Hplain.
  assert (Forall (fun seg => seg <> "" /\ split seg = [seg]) segs) as Hfree.
  { eapply Forall_impl; [exact Hplain|]. by intros seg (? & _ & _ & ?). }
  assert (Js.join "/" segs <> "") as Hjoin.
  { apply join_not_empty. destruct segs as [|seg rest]; [done|].
    exists seg. split; [left|]. by apply Forall_cons in Hplain as [[? _] _]. }
  assert (split (Js.join "/" segs) = segs) as Hsplit.
  { apply split_join; [done|]. rewrite Forall_forall in Hfree. intros seg Hin.
    by apply Hfree. }
  assert (".." ∉ segs) as Hdots.
  { rewrite Forall_forall in Hplain. intros Hin. by destruct (Hplain _ Hin) as (_ & _ & ? & _). }
  assert (absolutePathOf cwd (Js.join "/" segs)
          = blobRoot cwd +:+ "/" +:+ Js.join "/" segs) as Hrel.
  { unfold absolutePathOf, blobRoot.
    assert (startsWithSlash (Js.join "/" segs) = false) as ->.
    { destruct segs as [|seg rest]; [done|].
      apply Forall_cons in Hfree as [[Hseg Hs] _].
      rewrite startsWithSlash_join by done. by apply plain_not_slash. }
    rewrite below_root_segments; [|done|done|by rewrite Hsplit].
    rewrite Hsplit, blobRoot_segments by done.
    rewrite kept_plain; cycle 1.
    { eapply Forall_impl; [exact Hplain|]. by intros seg (? & ? & _). }
    rewrite endsWithSlash_join, append_nil_r by done.
    rewrite join_app; [by rewrite !append_assoc| |done].
    unfold rootSegments. by destruct (rev (stackAfter false (split cwd) [])). }
  split; [|exact Hrel].
  rewrite <- Hrel. unfold absolutePathOf.
  change (startsWithSlash ("/" +:+ Js.join "/" segs)) with true.
  change (slice1 ("/" +:+ Js.join "/" segs)) with (Js.join "/" segs).
  assert (startsWithSlash (Js.join "/" segs) = false) as ->; [|done].
  destruct segs as [|seg rest]; [done|].
  apply Forall_cons in Hfree as [[Hseg Hs] _].
  rewrite startsWithSlash_join by done. by apply plain_not_slash.
Qed.

Lemma stored_path_resolves_below_root_witness :
  absolutePathOf "/srv/app" ("/" +:+ Js.join "/" ["uploads"; "report.json"])
    = blobRoot "/srv/app" +:+ "/" +:+ Js.join "/" ["uploads"; "report.json"] /\
  absolutePathOf "/srv/app" (Js.join "/" ["uploads"; "report.json"])
    = blobRoot "/srv/app" +:+ "/" +:+ Js.join "/" ["uploads"; "report.json"].
Proof.
  apply (stored_path_resolves_below_root "/srv/app" ["uploads"; "report.json"]).
  - reflexivity.
  - discriminate.
  - repeat (apply Forall_cons_2; [by repeat split|]). apply Forall_nil_2.
Defined.

End ResolveTheorems.

(** ** More on the bulk handler over the reference backend *)

Module FootprintFacts.
Import Js BulkRoute Mem MemFacts ContainFacts Footprint.

(** What the metadata phase does to the world, whatever the entry and the
    script: it leaves disk, console and working directory alone, removes at
    most records, and calls the one store that [storageType] names. *)
Lemma deleteMetadata_footprint id storageType (w : World) res w' :
  deleteMetadata id storageType w = (res, w') ->
  disk w' = disk w /\ console w' = console w /\ cwd w' = cwd w /\
  mongo w' ⊆ mongo w /\ pg w' ⊆ pg w /\
  exists calls, trace w' = trace w ++ calls /\
    if isString storageType "mongodb"
    then pg w' = pg w /\ Forall documentCall calls
    else mongo w' = mongo w /\ Forall relationalCall calls.
Proof.
  unfold deleteMetadata, bind, connectMongoDB, findById, findByIdAndDelete, pool_query. simpl.
  unfold mem_findById, mem_findByIdAndDelete, mem_query, call, ret.
  destruct w as [mongo pg disk cwd fs trace console]. simpl.
  intros Hrun.
  repeat (case_match; simplify_eq/=).
  all: split_and!;
    [ done | done | done
    | first [done | apply delete_subseteq]
    | first [done | apply delete_subseteq]
    | eexists; split; [rewrite <- ?app_assoc; reflexivity|];
      split; [done | by repeat (apply Forall_cons_2; [exact I|]); apply Forall_nil_2] ].
Qed.

Lemma deletePhysical_footprint p (w : World) res w' :
  deletePhysical p w = (res, w') ->
  res = inr () /\ mongo w' = mongo w /\ pg w' = pg w /\ cwd w' = cwd w /\
  disk w' ⊆ disk w /\
  exists calls, trace w' = trace w ++ calls /\
                Forall (fun ev => exists path, ev = Unlink path) calls.
Proof.
  destruct p as [p|]; cycle 1.
  { intros [= <- <-]. split_and!; try done. exists []. by rewrite app_nil_r. }
  destruct (deletePhysical_spec p w) as (w1 & calls & Heq & Htr & Hm & Hpg & Hcwd & Hcases).
  rewrite Heq. intros [= <- <-]. split_and!; try done.
  - destruct Hcases as [(_ & _ & ->)|(_ & _ & _ & [[-> _]|[-> _]])]; [done| |done].
    apply subseteq_difference_l. done.
  - exists calls. split; [done|].
    destruct Hcases as [(_ & -> & _)|(_ & -> & _)]; [apply Forall_nil_2|].
    apply Forall_singleton. by eexists.
Qed.

Lemma deleteOne_null (w : World) :
  deleteOne JNull w =
    (inl (typeError "Cannot destructure property 'id' of 'fileInfo' as it is null."), w).
Proof. done. Qed.

Lemma deleteOne_not_null fileInfo (w : World) :
  fileInfo <> JNull ->
  deleteOne fileInfo w =
    bind (deleteMetadata (getProp fileInfo "id") (getProp fileInfo "storageType"))
         deletePhysical w.
Proof. intros Hnn. by destruct fileInfo. Qed.

End FootprintFacts.

Module FootprintTheorems.
Import Js BulkRoute Mem MemFacts ContainFacts Footprint FootprintFacts.

(** An entry is routed by its [storageType] alone: when it is the string
    [mongodb] the entry reaches the document store and never the relational
    one, and in every other case (another string, another value, no
    [storageType] at all) it reaches the relational store and never the
    document store.  Besides, a deletion calls nothing but [unlink]. *)
Theorem entry_is_routed_by_storage_type (fileInfo : json) (w : World) :
  fileInfo <> JNull ->
  let w' := (deleteOne fileInfo w).2 in
  if isString (getProp fileInfo "storageType") "mongodb"
  then pg w' = pg w /\
       Forall (fun ev => documentCall ev \/ exists path, ev = Unlink path) (callsSince w w')
  else mongo w' = mongo w /\
       Forall (fun ev => relationalCall ev \/ exists path, ev = Unlink path) (callsSince w w').
Proof.
  intros Hnn. cbv zeta. rewrite deleteOne_not_null by done. unfold bind.
  destruct (deleteMetadata _ _ w) as [[e|p] w1] eqn:Hmeta;
    apply deleteMetadata_footprint in Hmeta
      as (_ & _ & _ & _ & _ & calls & Htr & Hroute); simpl.
  { unfold callsSince. rewrite Htr, drop_app_length.
    destruct (isString _ "mongodb"); destruct Hroute as [Hstore Hcalls];
      (split; [done|]); eapply Forall_impl; eauto. }
  destruct (deletePhysical p w1) as [res w2] eqn:Hphys.
  apply deletePhysical_footprint in Hphys
    as (_ & Hm2 & Hpg2 & _ & _ & calls2 & Htr2 & Hcalls2). simpl.
  unfold callsSince. rewrite Htr2, Htr, <- app_assoc, drop_app_length.
  destruct (isString _ "mongodb"); destruct Hroute as [Hstore Hcalls];
    (split; [congruence|]); apply Forall_app; split;
    eapply Forall_impl; eauto.
Qed.

Lemma entry_is_routed_by_storage_type_witness :
  let fileInfo := JObject [("id", JNumber 1); ("storageType", JString "MongoDB")] in
  let w' := (deleteOne fileInfo fiveFiles).2 in
  if isString (getProp fileInfo "storageType") "mongodb"
  then pg w' = pg fiveFiles /\
       Forall (fun ev => documentCall ev \/ exists path, ev = Unlink path)
              (callsSince fiveFiles w')
  else mongo w' = mongo fiveFiles /\
       Forall (fun ev => relationalCall ev \/ exists path, ev = Unlink path)
              (callsSince fiveFiles w').
Proof.
  apply (entry_is_routed_by_storage_type
           (JObject [("id", JNumber 1); ("storageType", JString "MongoDB")]) fiveFiles).
  discriminate.
Defined.

End FootprintTheorems.

Module RegistryFacts.
Import Js BulkRoute Mem MemFacts ContainFacts Footprint FootprintFacts.

(** The metadata phase for a record removes nothing but that record. *)
Lemma deleteMetadata_others (r : FileRef) (w : World) res w1 :
  deleteMetadata (getProp (fileInfoOf r) "id") (getProp (fileInfoOf r) "storageType") w
    = (res, w1) ->
  forall r', r' <> r -> storedPath w1 r' = storedPath w r'.
Proof.
  destruct r as [s|n].
  - change (deleteMetadata _ _) with
      (bind connectMongoDB (fun _ =>
         bind (findById (Some (JString s))) (fun file =>
           match file with
           | Some f => bind (findByIdAndDelete (Some (JString s)))
                            (fun _ => ret (Some (filePath f)))
           | None => ret None
           end))).
    unfold bind, connectMongoDB, findById, findByIdAndDelete. simpl.
    unfold mem_findById, mem_findByIdAndDelete, call, ret.
    destruct w as [mongo pg disk cwd fs trace console]. simpl. intros Hrun r' Hne.
    repeat (case_match; simplify_eq/=); try done.
    all: destruct r' as [s'|n']; simpl; [|done];
      rewrite lookup_delete_ne; [done|congruence].
  - change (deleteMetadata _ _) with
      (bind (pool_query selectSql [Some (JNumber n)]) (fun result =>
         match rows result with
         | row :: _ => bind (pool_query deleteSql [Some (JNumber n)])
                            (fun _ => ret (Some (file_path row)))
         | [] => ret None
         end)).
    unfold pool_query. simpl. rewrite mem_query_select, mem_query_delete.
    unfold bind, call, ret.
    destruct w as [mongo pg disk cwd fs trace console]. simpl. intros Hrun r' Hne.
    repeat (case_match; simplify_eq/=); try done.
    all: destruct r' as [s'|n']; simpl; [done|];
      rewrite lookup_delete_ne; [done|congruence].
Qed.

Lemma deleteOne_others (r : FileRef) (w : World) r' :
  r' <> r -> storedPath (deleteOne (fileInfoOf r) w).2 r' = storedPath w r'.
Proof.
  intros Hne. rewrite deleteOne_split. unfold bind.
  destruct (deleteMetadata _ _ w) as [[e|p] w1] eqn:Hmeta;
    pose proof (deleteMetadata_others r w _ _ Hmeta r' Hne) as Hkeep; simpl; [done|].
  destruct (deletePhysical p w1) as [res w2] eqn:Hphys.
  apply deletePhysical_footprint in Hphys as (_ & Hm2 & Hpg2 & _). simpl.
  by rewrite (storedPath_ext w1 w2 r' Hm2 Hpg2).
Qed.

Lemma after_others (refs : list FileRef) (w : World) r :
  r ∉ refs -> storedPath (after (map fileInfoOf refs) w) r = storedPath w r.
Proof.
  revert w. induction refs as [|r0 rest IH]; intros w Hnin; simpl; [done|].
  apply not_elem_of_cons in Hnin as [Hne Hrest].
  rewrite IH by done. by apply deleteOne_others.
Qed.

Lemma POST_world (refs : list FileRef) (w : World) :
  (POST (bulkDeleteRequest refs) w).2 = after (map fileInfoOf refs) w.
Proof.
  destruct refs as [|r rest]; [done|].
  unfold bulkDeleteRequest.
  rewrite (RouteFacts.POST_delete _ (map fileInfoOf (r :: rest)));
    [done|done|done|done|apply fileInfoOf_reportable].
Qed.

(** Looking up a record that its store does not hold changes nothing, when
    nothing is scripted to fail. *)
Lemma deleteOne_absent_fault_free (r : FileRef) (w : World) :
  faults w = [] -> storedPath w r = None ->
  exists w', deleteOne (fileInfoOf r) w = (inr (), w') /\ faults w' = [] /\
             mongo w' = mongo w /\ pg w' = pg w /\ disk w' = disk w.
Proof.
  destruct w as [mongo pg disk cwd fs trace console]. simpl. intros -> Hnone.
  destruct r as [s|n]; simpl in Hnone; apply fmap_None in Hnone.
  - rewrite deleteOne_document. unfold bind, call. simpl. rewrite Hnone. simpl.
    by eexists.
  - rewrite deleteOne_relational, mem_query_select. unfold bind, call. simpl.
    rewrite Hnone. simpl. by eexists.
Qed.

Lemma batch_absent (refs : list FileRef) (w : World) :
  faults w = [] -> Forall (fun r => storedPath w r = None) refs ->
  outcomes (map fileInfoOf refs) w = map (fun r => (fileInfoOf r, None)) refs /\
  mongo (after (map fileInfoOf refs) w) = mongo w /\
  pg (after (map fileInfoOf refs) w) = pg w /\
  disk (after (map fileInfoOf refs) w) = disk w.
Proof.
  intros Hfaults Hall. revert w Hfaults Hall.
  induction refs as [|r rest IH]; intros w Hfaults Hall; simpl; [done|].
  apply Forall_cons in Hall as [Hr Hrest].
  destruct (deleteOne_absent_fault_free r w Hfaults Hr)
    as (w' & Hrun & Hfaults' & Hm & Hpg & Hdisk).
  rewrite Hrun. simpl.
  destruct (IH w' Hfaults') as (Hos & Hm' & Hpg' & Hdisk').
  { eapply Forall_impl; [exact Hrest|]. intros r' Hnone. simpl in Hnone.
    by rewrite (storedPath_ext w w' r' Hm Hpg). }
  rewrite Hos. split_and!; [done|congruence|congruence|congruence].
Qed.

Lemma after_fault_free (refs : list FileRef) (w : World) :
  faults w = [] -> faults (after (map fileInfoOf refs) w) = [].
Proof.
  revert w. induction refs as [|r rest IH]; intros w Hfaults; simpl; [done|].
  destruct (deleteOne_fault_free r w Hfaults) as (w' & Hrun & Hfaults' & _).
  rewrite Hrun. simpl. by apply IH.
Qed.

End RegistryFacts.

Module RegistryTheorems.
Import Js BulkRoute Mem MemFacts ContainFacts Footprint FootprintFacts RegistryFacts.

(** Deleting a record that its store does not hold only looks it up: no
    delete is issued and [unlink] is not called, both stores, the disk and
    the console stay as they were, and the deletion counts as a success
    unless a lookup call throws. *)
Theorem absent_record_is_only_looked_up (w : World) (r : FileRef) :
  storedPath w r = None ->
  exists res w' calls,
    deleteOne (fileInfoOf r) w = (res, w') /\
    trace w' = trace w ++ calls /\
    mongo w' = mongo w /\ pg w' = pg w /\ disk w' = disk w /\ console w' = console w /\
    match firstFault (length (lookupCalls r)) (faults w) with
    | Some e => res = inl e /\ (calls `prefix_of` lookupCalls r)
    | None => res = inr () /\ calls = lookupCalls r
    end.
Proof.
  intros Hnone. destruct w as [mongo pg disk cwd fs trace console].
  destruct r as [s|n]; simpl in Hnone; apply fmap_None in Hnone.
  - rewrite deleteOne_document.
    next_fault fs; [| |next_fault fs];
      unfold bind, call; simpl; rewrite ?Hnone; simpl;
      do 3 eexists; (split; [reflexivity|]); simpl;
      (split; [rewrite <- ?app_assoc; reflexivity|]);
      split_and!; try done; by eexists.
  - rewrite deleteOne_relational, mem_query_select.
    next_fault fs;
      unfold bind, call; simpl; rewrite ?Hnone; simpl;
      do 3 eexists; (split; [reflexivity|]); simpl;
      (split; [rewrite <- ?app_assoc; reflexivity|]);
      split_and!; try done; by eexists.
Qed.

Lemma absent_record_is_only_looked_up_witness :
  exists res w' calls,
    deleteOne (fileInfoOf (RelationalRef 99)) fiveFiles = (res, w') /\
    trace w' = trace fiveFiles ++ calls /\
    mongo w' = mongo fiveFiles /\ pg w' = pg fiveFiles /\
    disk w' = disk fiveFiles /\ console w' = console fiveFiles /\
    match firstFault (length (lookupCalls (RelationalRef 99))) (faults fiveFiles) with
    | Some e => res = inl e /\ (calls `prefix_of` lookupCalls (RelationalRef 99))
    | None => res = inr () /\ calls = lookupCalls (RelationalRef 99)
    end.
Proof.
  apply (absent_record_is_only_looked_up fiveFiles (RelationalRef 99)). by vm_compute.
Defined.

(** A bulk delete touches the records it is given and no other: a record
    that is not in the request has the same stored path afterwards, or is
    as absent as before, whatever fails on the way. *)
Theorem unlisted_records_are_untouched (refs : list FileRef) (r : FileRef) (w : World) :
  r ∉ refs ->
  storedPath (POST (bulkDeleteRequest refs) w).2 r = storedPath w r.
Proof. intros Hnin. rewrite POST_world. by apply after_others. Qed.

Lemma unlisted_records_are_untouched_witness :
  storedPath (POST (bulkDeleteRequest [RelationalRef 1; RelationalRef 2])
                   fiveFilesOneFault).2 (RelationalRef 3)
  = storedPath fiveFilesOneFault (RelationalRef 3).
Proof.
  apply (unlisted_records_are_untouched [RelationalRef 1; RelationalRef 2]
           (RelationalRef 3) fiveFilesOneFault).
  rewrite !not_elem_of_cons. split_and!; [discriminate | discriminate | apply not_elem_of_nil].
Defined.

(** When no backend call fails, sending the same bulk delete a second time
    gets the same answer and changes neither store nor the disk. *)
Theorem bulk_delete_twice (refs : list FileRef) (w : World) :
  faults w = [] ->
  let first := POST (bulkDeleteRequest refs) w in
  let second := POST (bulkDeleteRequest refs) first.2 in
  second.1 = first.1 /\
  mongo second.2 = mongo first.2 /\ pg second.2 = pg first.2 /\
  disk second.2 = disk first.2.
Proof.
  intros Hfaults. destruct refs as [|r rest]; [done|].
  set (refs := r :: rest). cbv zeta.
  assert (Forall reportable (map fileInfoOf refs)) as Hnn
    by apply fileInfoOf_reportable.
  destruct (batch_fault_free refs w Hfaults) as [Hos1 Habsent].
  pose proof (after_fault_free refs w Hfaults) as Hfaults1.
  assert (Forall (fun r0 => storedPath (after (map fileInfoOf refs) w) r0 = None) refs)
    as Hgone.
  { apply Forall_forall. intros r0 Hin. apply Habsent. by left. }
  destruct (batch_absent refs _ Hfaults1 Hgone) as (Hos2 & Hm & Hpg & Hdisk).
  unfold bulkDeleteRequest.
  rewrite (RouteFacts.POST_delete _ (map fileInfoOf refs) w); [|done|done|done|done].
  cbn [fst snd].
  rewrite (RouteFacts.POST_delete _ (map fileInfoOf refs)); [|done|done|done|done].
  cbn [fst snd]. rewrite Hos1, Hos2. done.
Qed.

Lemma bulk_delete_twice_witness :
  let first := POST (bulkDeleteRequest fiveValid) fiveFiles in
  let second := POST (bulkDeleteRequest fiveValid) first.2 in
  second.1 = first.1 /\
  mongo second.2 = mongo first.2 /\ pg second.2 = pg first.2 /\
  disk second.2 = disk first.2.
Proof. apply (bulk_delete_twice fiveValid fiveFiles). reflexivity. Defined.

End RegistryTheorems.
